(** * Documentation checkers of plexica: metadata hook and link validator

    A shallow embedding of
      - [.github/hooks/validate-doc-metadata.py]  (module [Metadata])
      - [.github/scripts/validate-doc-links.py]   (module [Links])
    together with the Python library operations both scripts lean on:
    [str] methods, the [re] patterns that occur in the scripts,
    [pathlib.PurePosixPath] and [datetime].

    Conventions of the embedding.
      - A Python [str] is a [string]; a character is the code point of an
        [ascii], so the model covers text whose code points are below 256.
        The tables for [\s], [\d], [\w] and [str.lower] are the ones CPython
        uses on that range.
      - The file system, the clock, the working directory and the output of
        [git diff --cached --name-only] are inputs of the model.
      - A Python exception that a [try] of the script does not catch is the
        outcome [Raise]; the mutable attributes of a validator object are a
        record threaded through the calls.
      - [print] calls are left out: they neither read nor write the
        attributes and do not influence any return value. *)

From Stdlib Require Import List String Ascii ZArith NArith Bool Lia.
From Stdlib Require Import DecimalString.
Import ListNotations.

Local Open Scope string_scope.
Local Open Scope Z_scope.

Set Implicit Arguments.

(* ------------------------------------------------------------------ *)
(** ** Characters                                                       *)
(* ------------------------------------------------------------------ *)

Module Chars.

Definition code (c : ascii) : N := N_of_ascii c.

Definition between (lo hi : N) (c : ascii) : bool :=
  (N.leb lo (code c) && N.leb (code c) hi)%bool.

Definition newline : ascii := ascii_of_N 10.

(** [\d] *)
Definition is_digit (c : ascii) : bool := between 48 57 c.

(** [\s], i.e. [str.isspace] *)
Definition is_space (c : ascii) : bool :=
  (between 9 13 c || between 28 32 c
   || N.eqb (code c) 133 || N.eqb (code c) 160)%bool.

(** [\w], i.e. [str.isalnum] or an underscore *)
Definition is_word (c : ascii) : bool :=
  (is_digit c || between 65 90 c || between 97 122 c || N.eqb (code c) 95
   || N.eqb (code c) 170 || between 178 179 c || N.eqb (code c) 181
   || between 185 186 c || between 188 190 c
   || between 192 214 c || between 216 246 c || between 248 255 c)%bool.

(** [.] without [re.DOTALL] *)
Definition is_dot (c : ascii) : bool := negb (Ascii.eqb c newline).

Definition is_upper (c : ascii) : bool :=
  (between 65 90 c || between 192 214 c || between 216 222 c)%bool.

(** one character of [str.lower] *)
Definition lower_char (c : ascii) : ascii :=
  if is_upper c then ascii_of_N (code c + 32) else c.

End Chars.

(* ------------------------------------------------------------------ *)
(** ** The [str] methods used by the scripts                            *)
(* ------------------------------------------------------------------ *)

Module Str.
Import Chars.

Fixpoint map_chars (f : ascii -> ascii) (s : string) : string :=
  match s with
  | EmptyString => EmptyString
  | String c r => String (f c) (map_chars f r)
  end.

Fixpoint filter_chars (keep : ascii -> bool) (s : string) : string :=
  match s with
  | EmptyString => EmptyString
  | String c r =>
      if keep c then String c (filter_chars keep r) else filter_chars keep r
  end.

Fixpoint all_chars (p : ascii -> bool) (s : string) : bool :=
  match s with
  | EmptyString => true
  | String c r => (p c && all_chars p r)%bool
  end.

(** [s.lower()] *)
Definition lower (s : string) : string := map_chars lower_char s.

(** [s.replace(old, new)] for a one-character [old] *)
Fixpoint replace_char (old : ascii) (new : string) (s : string) : string :=
  match s with
  | EmptyString => EmptyString
  | String c r =>
      if Ascii.eqb c old then new ++ replace_char old new r
      else String c (replace_char old new r)
  end.

(** [s.startswith(p)] *)
Definition startswith (p s : string) : bool := String.prefix p s.

(** [p in s] *)
Fixpoint contains (p s : string) : bool :=
  match s with
  | EmptyString => String.prefix p s
  | String _ r => (String.prefix p s || contains p r)%bool
  end.

(** [c in s] for a character *)
Fixpoint has_char (c : ascii) (s : string) : bool :=
  match s with
  | EmptyString => false
  | String d r => (Ascii.eqb d c || has_char c r)%bool
  end.

(** [s.split(c, 1)]: the text before the first [c] and the text after it,
    for an [s] that contains [c]; without a [c] the second part is empty. *)
Fixpoint split_first (c : ascii) (s : string) : string * string :=
  match s with
  | EmptyString => (EmptyString, EmptyString)
  | String d r =>
      if Ascii.eqb d c then (EmptyString, r)
      else let '(a, b) := split_first c r in (String d a, b)
  end.

(** [s.split(c)] *)
Fixpoint split (c : ascii) (s : string) : list string :=
  match s with
  | EmptyString => [EmptyString]
  | String d r =>
      if Ascii.eqb d c then EmptyString :: split c r
      else match split c r with
           | [] => [String d EmptyString]
           | h :: t => String d h :: t
           end
  end.

(** [sep.join(l)] *)
Fixpoint join (sep : string) (l : list string) : string :=
  match l with
  | [] => EmptyString
  | [x] => x
  | x :: r => x ++ sep ++ join sep r
  end.

Fixpoint lstrip (s : string) : string :=
  match s with
  | EmptyString => EmptyString
  | String c r => if is_space c then lstrip r else s
  end.

Fixpoint rstrip (s : string) : string :=
  match s with
  | EmptyString => EmptyString
  | String c r =>
      match rstrip r with
      | EmptyString => if is_space c then EmptyString else String c EmptyString
      | r' => String c r'
      end
  end.

(** [s.strip()] *)
Definition strip (s : string) : string := rstrip (lstrip s).

(** [s[:n]] *)
Fixpoint take (n : nat) (s : string) : string :=
  match n, s with
  | O, _ => EmptyString
  | S _, EmptyString => EmptyString
  | S m, String c r => String c (take m r)
  end.

(** truth value of a [str]: non-empty *)
Definition truthy (s : string) : bool :=
  match s with EmptyString => false | _ => true end.

(** [str(n)] for an integer *)
Definition of_Z (n : Z) : string := NilZero.string_of_int (Z.to_int n).

End Str.

(* ------------------------------------------------------------------ *)
(** ** The fragment of [re] the two scripts use                         *)
(* ------------------------------------------------------------------ *)

Module Re.
Import Chars.

(** A pattern is a sequence of atoms.  Every repetition in the scripts
    ranges over a one-character class, and no pattern has more than one
    capturing group. *)
Inductive atom : Type :=
| Lit (s : string)
    (** literal text *)
| Rep (greedy : bool) (lo : nat) (hi : option nat) (cls : ascii -> bool)
    (** [cls{lo,hi}]; [hi = None] is unbounded; lazy when [greedy = false] *)
| Open
    (** [(] of group 1 *)
| Close
    (** [)] of group 1 *)
| Bol
    (** [^] under [re.MULTILINE] *)
| Eol.
    (** [$] under [re.MULTILINE] *)

Definition pattern := list atom.

(** A match in progress: the character before the cursor, the text that
    group 1 started at, and the text of group 1 once closed. *)
Record cursor : Type := {
  prev : option ascii;
  gopen : string;
  group1 : string
}.

Definition below (n : nat) (hi : option nat) : bool :=
  match hi with None => true | Some h => Nat.ltb n h end.

Definition at_bol (p : option ascii) : bool :=
  match p with None => true | Some c => Ascii.eqb c newline end.

Definition at_eol (s : string) : bool :=
  match s with EmptyString => true | String c _ => Ascii.eqb c newline end.

Fixpoint drop_prefix (p s : string) : option (string * option ascii) :=
  match p, s with
  | EmptyString, _ => Some (s, None)
  | String a p', String b s' =>
      if Ascii.eqb a b then
        match drop_prefix p' s' with
        | Some (r, None) => Some (r, Some b)
        | other => other
        end
      else None
  | String _ _, EmptyString => None
  end.

(** Backtracking match of a pattern at the cursor; the result is the text
    left after the match and the final cursor. *)
Fixpoint match_here (p : pattern) (k : cursor) (s : string)
  : option (string * cursor) :=
  match p with
  | [] => Some (s, k)
  | Lit l :: p' =>
      match drop_prefix l s with
      | Some (r, last) =>
          match_here p'
            {| prev := match last with Some c => Some c | None => prev k end;
               gopen := gopen k; group1 := group1 k |} r
      | None => None
      end
  | Open :: p' =>
      match_here p' {| prev := prev k; gopen := s; group1 := group1 k |} s
  | Close :: p' =>
      match_here p'
        {| prev := prev k; gopen := gopen k;
           group1 := Str.take (String.length (gopen k) - String.length s)
                       (gopen k) |} s
  | Bol :: p' => if at_bol (prev k) then match_here p' k s else None
  | Eol :: p' => if at_eol s then match_here p' k s else None
  | Rep greedy lo hi cls :: p' =>
      (fix rep (n : nat) (k : cursor) (s : string) {struct s}
         : option (string * cursor) :=
         let more (_ : unit) :=
           match s with
           | String c r =>
               if (cls c && below n hi)%bool then
                 rep (S n)
                   {| prev := Some c; gopen := gopen k; group1 := group1 k |} r
               else None
           | EmptyString => None
           end in
         let stop (_ : unit) :=
           if Nat.leb lo n then match_here p' k s else None in
         if greedy
         then match more tt with Some v => Some v | None => stop tt end
         else match stop tt with Some v => Some v | None => more tt end) O k s
  end.

(** A match object: [group(0)] and [group(1)]. *)
Record mtch : Type := { group0 : string; grp1 : string }.

Definition start_cursor (p : option ascii) : cursor :=
  {| prev := p; gopen := EmptyString; group1 := EmptyString |}.

Definition match_at (p : pattern) (before : option ascii) (s : string)
  : option (mtch * nat) :=
  match match_here p (start_cursor before) s with
  | Some (r, k) =>
      let n := (String.length s - String.length r)%nat in
      Some ({| group0 := Str.take n s; grp1 := group1 k |}, n)
  | None => None
  end.

(** [re.search(p, s, re.MULTILINE)]: the leftmost match. *)
Fixpoint search_from (p : pattern) (before : option ascii) (s : string)
  : option mtch :=
  match match_at p before s with
  | Some (m, _) => Some m
  | None =>
      match s with
      | EmptyString => None
      | String c r => search_from p (Some c) r
      end
  end.

Definition search (p : pattern) (s : string) : option mtch :=
  search_from p None s.

(** [p.finditer(s)]: the successive non-overlapping matches.  [skip]
    counts the characters still covered by the previous match. *)
Fixpoint finditer_from (p : pattern) (skip : nat) (before : option ascii)
    (s : string) : list mtch :=
  let here :=
    match skip with
    | O => match_at p before s
    | S _ => None
    end in
  let found := match here with Some (m, _) => [m] | None => [] end in
  let skip' :=
    match here with
    | Some (_, n) => Nat.pred n
    | None => Nat.pred skip
    end in
  match s with
  | EmptyString => found
  | String c r => found ++ finditer_from p skip' (Some c) r
  end.

Definition finditer (p : pattern) (s : string) : list mtch :=
  finditer_from p O None s.

(** [re.sub(r'[^cls]', '', s)]: delete every character outside a class. *)
Definition sub_outside (cls : ascii -> bool) (s : string) : string :=
  Str.filter_chars cls s.

End Re.

(* ------------------------------------------------------------------ *)
(** ** [pathlib.PurePosixPath]                                          *)
(* ------------------------------------------------------------------ *)

Module Path.

(** The parsed form pathlib keeps: the root (empty, one slash or exactly
    two slashes) and the segments, with empty segments and single dots
    dropped. *)
Record t : Type := { root : string; segs : list string }.

Definition slash : ascii := "/"%char.

Fixpoint strip_slashes (s : string) : string :=
  match s with
  | String c r => if Ascii.eqb c slash then strip_slashes r else s
  | EmptyString => EmptyString
  end.

Definition splitroot (s : string) : string * string :=
  match s with
  | String c r =>
      if Ascii.eqb c slash then
        let rel := strip_slashes s in
        if Nat.eqb (String.length s - String.length rel) 2
        then ("//", rel) else ("/", rel)
      else (EmptyString, s)
  | EmptyString => (EmptyString, s)
  end.

Definition keep_seg (x : string) : bool :=
  (Str.truthy x && negb (String.eqb x "."))%bool.

(** [Path(s)] *)
Definition of_string (s : string) : t :=
  let '(r, rel) := splitroot s in
  {| root := r; segs := filter keep_seg (Str.split slash rel) |}.

(** [str(p)] *)
Definition to_string (p : t) : string :=
  match root p, segs p with
  | EmptyString, [] => "."
  | r, l => r ++ Str.join "/" l
  end.

(** [p.parts] *)
Definition parts (p : t) : list string :=
  if Str.truthy (root p) then root p :: segs p else segs p.

(** [p.name] *)
Definition name (p : t) : string := last (segs p) EmptyString.

(** the text from the last dot of [s] on, when [s] has a dot *)
Fixpoint from_last_dot (s : string) : option string :=
  match s with
  | EmptyString => None
  | String c r =>
      match from_last_dot r with
      | Some x => Some x
      | None => if Ascii.eqb c "."%char then Some s else None
      end
  end.

(** [p.suffix]: with [i = name.rfind('.')], the text [name[i:]] when
    [0 < i < len(name) - 1], else the empty string *)
Definition suffix (p : t) : string :=
  match name p with
  | EmptyString => EmptyString
  | String _ r =>
      match from_last_dot r with
      | Some suf => if Nat.ltb 1 (String.length suf) then suf else EmptyString
      | None => EmptyString
      end
  end.

(** [p.parent] *)
Definition parent (p : t) : t :=
  match segs p with
  | [] => p
  | l => {| root := root p; segs := removelast l |}
  end.

(** [p / s] for a [str] [s] *)
Definition joinpath (p : t) (s : string) : t :=
  let q := of_string s in
  if Str.truthy (root q) then q
  else {| root := root p; segs := segs p ++ segs q |}.

Fixpoint list_prefix (a b : list string) : bool :=
  match a, b with
  | [], _ => true
  | x :: a', y :: b' => (String.eqb x y && list_prefix a' b')%bool
  | _ :: _, [] => false
  end.

(** [p.relative_to(other)]; [None] stands for the [ValueError] raised
    when [other] is not a leading part of [p], which includes the case
    of one path being absolute and the other relative. *)
Definition relative_to (p other : t) : option t :=
  if (String.eqb (root p) (root other)
      && list_prefix (segs other) (segs p))%bool
  then Some {| root := EmptyString;
               segs := skipn (List.length (segs other)) (segs p) |}
  else None.

Fixpoint list_eqb (a b : list string) : bool :=
  match a, b with
  | [], [] => true
  | x :: a', y :: b' => (String.eqb x y && list_eqb a' b')%bool
  | _, _ => false
  end.

(** [p == q] *)
Definition eqb (p q : t) : bool :=
  (String.eqb (root p) (root q) && list_eqb (segs p) (segs q))%bool.

(** Lexical removal of [..] segments: what [resolve] does to an absolute
    path on a tree without symbolic links. *)
Fixpoint normalize_segs (acc l : list string) : list string :=
  match l with
  | [] => acc
  | x :: r =>
      if String.eqb x ".." then normalize_segs (removelast acc) r
      else normalize_segs (acc ++ [x]) r
  end.

Definition normalize (p : t) : t :=
  {| root := root p; segs := normalize_segs [] (segs p) |}.

End Path.

(* ------------------------------------------------------------------ *)
(** ** Outcomes of a call                                               *)
(* ------------------------------------------------------------------ *)

(** The exceptions that escape the [try] blocks of the scripts:
    [ValueError] from [relative_to]; [OSError] from [exists], which
    re-raises every error of the operating system but a few kinds of
    absence; [RuntimeError] from [resolve] on a loop of symbolic links. *)
Inductive exn : Type := ValueError | OSError | RuntimeError.

Inductive outcome (A : Type) : Type :=
| Ok (a : A)
| Raise (e : exn).

Arguments Ok {A} a.
Arguments Raise {A} e.

(** Status of the process after [sys.exit(main())]: the value [main]
    returns, or 1 when an exception reaches the top level. *)
Definition exit_status (r : outcome Z) : Z :=
  match r with
  | Ok c => c
  | Raise _ => 1
  end.

(** [datetime]: the proleptic Gregorian calendar of the module. *)
Module Date.

Definition is_leap (y : Z) : bool :=
  ((y mod 4 =? 0) && (negb (y mod 100 =? 0) || (y mod 400 =? 0)))%bool.

Definition days_before_year (year : Z) : Z :=
  let y := year - 1 in
  y * 365 + y / 4 - y / 100 + y / 400.

Definition days_in_month (y m : Z) : Z :=
  if m =? 2 then (if is_leap y then 29 else 28)
  else if ((m =? 4) || (m =? 6) || (m =? 9) || (m =? 11))%bool then 30
  else 31.

Definition days_before_month (y m : Z) : Z :=
  nth (Z.to_nat m) [0; 0; 31; 59; 90; 120; 151; 181; 212; 243; 273; 304; 334] 0
  + (if ((2 <? m) && is_leap y)%bool then 1 else 0).

(** [date(y, m, d).toordinal()] *)
Definition toordinal (y m d : Z) : Z :=
  days_before_year y + days_before_month y m + d.

Definition digit_val (c : ascii) : Z := Z.of_N (Chars.code c) - 48.

Fixpoint number (acc : Z) (s : string) : Z :=
  match s with
  | EmptyString => acc
  | String c r => number (acc * 10 + digit_val c) r
  end.

Definition digits (n : nat) (s : string) : bool :=
  (Nat.eqb (String.length s) n && Str.all_chars Chars.is_digit s)%bool.

(** [datetime.strptime(s, '%Y-%m-%d')] on the texts that reach it in the
    hook (four, two and two decimal digits): the ordinal of the date, or
    [None] for the [ValueError] of a date that does not exist (year 0,
    month outside 1..12, day outside the month). *)
Definition strptime (s : string) : option Z :=
  match Str.split "-"%char s with
  | [ys; ms; ds] =>
      if (digits 4 ys && digits 2 ms && digits 2 ds)%bool then
        let y := number 0 ys in
        let m := number 0 ms in
        let d := number 0 ds in
        if ((1 <=? y) && (1 <=? m) && (m <=? 12)
            && (1 <=? d) && (d <=? days_in_month y m))%bool
        then Some (toordinal y m d) else None
      else None
  | _ => None
  end.

End Date.

(* ------------------------------------------------------------------ *)
(** ** [validate-doc-metadata.py]: class [DocMetadataValidator]         *)
(* ------------------------------------------------------------------ *)

Module Metadata.
Import Chars Re.

(** What the hook reads from outside the process. *)
Record env : Type := {
  cwd : Path.t;
    (** [Path.cwd()] *)
  read_text : Path.t -> string + string;
    (** [p.read_text(encoding='utf-8')]: the content, or the text of the
        exception it raised *)
  today : Z;
    (** ordinal of the date of [datetime.now()] *)
  git_diff : option string
    (** standard output of [git diff --cached --name-only], or [None]
        for [CalledProcessError] *)
}.

(** [self.errors] and [self.warnings] *)
Record state : Type := { errors : list string; warnings : list string }.

Definition init : state := {| errors := []; warnings := [] |}.

Definition add_error (m : string) (st : state) : state :=
  {| errors := errors st ++ [m]; warnings := warnings st |}.

Definition add_warning (m : string) (st : state) : state :=
  {| errors := errors st; warnings := warnings st ++ [m] |}.

Definition label_then (label : string) (value : pattern) : pattern :=
  Lit label :: Rep true 0 None is_space :: value.

Definition date_pattern : pattern :=
  [Rep true 4 (Some 4%nat) is_digit; Lit "-";
   Rep true 2 (Some 2%nat) is_digit; Lit "-";
   Rep true 2 (Some 2%nat) is_digit].

Definition some_text : pattern := [Rep true 1 None is_dot].

(** [REQUIRED_FIELDS], in the order the dictionary is written *)
Definition REQUIRED_FIELDS : list (string * pattern) :=
  [ ("Last Updated", label_then "**Last Updated**:" date_pattern);
    ("Status", label_then "**Status**:" some_text);
    ("Owner", label_then "**Owner**:" some_text);
    ("Document Type", label_then "**Document Type**:" some_text) ].

Definition DOCS_DIRS : list string :=
  ["specs"; "docs"; "planning"; ".github/docs"].

Definition EXCLUDE_PATTERNS : list string :=
  ["README.md"; "__pycache__"; ".git"; "node_modules"].

Definition mem (x : string) (l : list string) : bool :=
  existsb (String.eqb x) l.

(** [should_check_file] *)
Definition should_check_file (filepath : Path.t) : bool :=
  if negb (String.eqb (Path.suffix filepath) ".md") then false
  else if negb (existsb (fun part => mem part DOCS_DIRS)
                  (Path.parts filepath)) then false
  else if existsb (fun pat => Str.contains pat (Path.to_string filepath))
            EXCLUDE_PATTERNS then false
  else true.

(** The loop over [REQUIRED_FIELDS]: [missing_fields] and [found_fields] *)
Fixpoint scan (fields : list (string * pattern)) (content : string)
  : list string * list (string * string) :=
  match fields with
  | [] => ([], [])
  | (field_name, pat) :: rest =>
      let '(missing, found) := scan rest content in
      match search pat content with
      | Some m => (missing, (field_name, group0 m) :: found)
      | None => (field_name :: missing, found)
      end
  end.

Definition missing_fields (content : string) : list string :=
  fst (scan REQUIRED_FIELDS content).

Definition found_fields (content : string) : list (string * string) :=
  snd (scan REQUIRED_FIELDS content).

Fixpoint lookup (k : string) (d : list (string * string)) : option string :=
  match d with
  | [] => None
  | (k', v) :: r => if String.eqb k k' then Some v else lookup k r
  end.

Definition valid_statuses : list string :=
  ["Complete"; "In Progress"; "Planned"; "Deprecated"; "Archived";
   "Needs Update"].

(** [f"{filepath.relative_to(Path.cwd())}: ..."] *)
Definition shown (e : env) (filepath : Path.t) : option string :=
  match Path.relative_to filepath (cwd e) with
  | Some rel => Some (Path.to_string rel)
  | None => None
  end.

Definition missing_message (rel : string) (missing : list string) : string :=
  rel ++ ": " ++ "Missing metadata: " ++ Str.join ", " missing.

Definition stale_message (rel : string) (days_old : Z) : string :=
  rel ++ ": " ++ "Last Updated is " ++ Str.of_Z days_old
      ++ " days old. Consider updating.".

Definition status_message (rel status_value : string) : string :=
  rel ++ ": " ++ "Status '" ++ status_value ++ "' should be one of: "
      ++ Str.join ", " valid_statuses.

Definition unreadable_message (filepath : Path.t) (why : string) : string :=
  "Could not read " ++ Path.to_string filepath ++ ": " ++ why.

(** [days_old] of the [try] block, when [strptime] accepts the date: the
    [days] of [datetime.now() - doc_date].  [doc_date] is a midnight and
    the time of day of [now] is less than a day, so the normalised
    [timedelta] has the difference of the two ordinals as its [days]. *)
Definition days_old_of (e : env) (found : list (string * string)) : option Z :=
  match lookup "Last Updated" found with
  | Some text =>
      match search date_pattern text with
      | Some date_match =>
          match Date.strptime (group0 date_match) with
          | Some doc => Some (today e - doc)
          | None => None
          end
      | None => None
      end
  | None => None
  end.

(** Lines 89-105.  The [append] sits inside the [try], so the
    [ValueError] of [relative_to] is swallowed by [except ValueError]
    just like the one of [strptime]. *)
Definition check_recent (e : env) (filepath : Path.t)
    (found : list (string * string)) (st : state) : state :=
  match days_old_of e found with
  | Some days_old =>
      if 180 <? days_old then
        match shown e filepath with
        | Some rel => add_warning (stale_message rel days_old) st
        | None => st
        end
      else st
  | None => st
  end.

(** Lines 107-115: here [relative_to] is outside any [try]. *)
Definition check_status (e : env) (filepath : Path.t)
    (found : list (string * string)) (st : state) : outcome state :=
  match lookup "Status" found with
  | Some status_value =>
      if negb (existsb (fun s => Str.contains s status_value) valid_statuses)
      then match shown e filepath with
           | Some rel => Ok (add_warning (status_message rel status_value) st)
           | None => Raise ValueError
           end
      else Ok st
  | None => Ok st
  end.

(** [validate_file]: the value returned or the exception raised, and the
    attributes at that point. *)
Definition validate_file (e : env) (filepath : Path.t) (st : state)
  : outcome bool * state :=
  match read_text e filepath with
  | inr why => (Ok false, add_error (unreadable_message filepath why) st)
  | inl content =>
      let '(missing, found) := scan REQUIRED_FIELDS content in
      match missing with
      | _ :: _ =>
          match shown e filepath with
          | Some rel => (Ok false, add_error (missing_message rel missing) st)
          | None => (Raise ValueError, st)
          end
      | [] =>
          let st1 := check_recent e filepath found st in
          match check_status e filepath found st1 with
          | Ok st2 => (Ok true, st2)
          | Raise x => (Raise x, st1)
          end
      end
  end.

(** [get_staged_files] *)
Definition get_staged_files (e : env) : list Path.t :=
  match git_diff e with
  | Some stdout =>
      map Path.of_string
        (filter Str.truthy (Str.split newline (Str.strip stdout)))
  | None => []
  end.

(** The [for doc_file in doc_files] loop of [run]; an exception out of
    [validate_file] ends it. *)
Fixpoint validate_all (e : env) (doc_files : list Path.t) (st : state)
  : outcome unit * state :=
  match doc_files with
  | [] => (Ok tt, st)
  | doc_file :: rest =>
      match validate_file e doc_file st with
      | (Ok _, st') => validate_all e rest st'
      | (Raise x, st') => (Raise x, st')
      end
  end.

(** [run] on a fresh validator *)
Definition run (e : env) : outcome Z * state :=
  let staged_files := get_staged_files e in
  match staged_files with
  | [] => (Ok 0, init)
  | _ =>
      let doc_files := filter should_check_file staged_files in
      match doc_files with
      | [] => (Ok 0, init)
      | _ =>
          match validate_all e doc_files init with
          | (Ok _, st) =>
              match errors st with
              | _ :: _ => (Ok 1, st)
              | [] => (Ok 0, st)
              end
          | (Raise x, st) => (Raise x, st)
          end
      end
  end.

(** [main], and the status [sys.exit(main())] leaves *)
Definition main (e : env) : outcome Z := fst (run e).

Definition process_status (e : env) : Z := exit_status (main e).

End Metadata.

(* ------------------------------------------------------------------ *)
(** ** [validate-doc-links.py]: class [LinkValidator]                   *)
(* ------------------------------------------------------------------ *)

Module Links.
Import Chars Re.

(** The file system as the script sees it. *)
Record fs : Type := {
  exists_ : Path.t -> outcome bool;
    (** [p.exists()]: the answer, or the exception it raised *)
  read_text : Path.t -> string + string;
    (** [p.read_text(encoding='utf-8')]: the content, or the text of the
        exception it raised *)
  resolve : Path.t -> outcome Path.t;
    (** [p.resolve()]: the path, or the exception it raised *)
  rglob_md : Path.t -> list Path.t
    (** [list(d.rglob("*.md"))] *)
}.

(** Accesses to the file system and runs of the heading pattern over a
    file's content, in the order they happen.  The script keeps no such
    log; it is recorded to state what the script does and does not do. *)
Inductive event : Type :=
| EvExists (p : Path.t)
| EvResolve (p : Path.t)
| EvRead (p : Path.t)
| EvParse (p : Path.t).

Record state : Type := {
  errors : list string;
  warnings : list string;
  anchors : list (Path.t * list string);
    (** the dictionary [self.anchors]; a set of anchors is a list
        without repetition *)
  links : list (Path.t * string);
  trace : list event
}.

Definition init : state :=
  {| errors := []; warnings := []; anchors := []; links := []; trace := [] |}.

Definition add_error (m : string) (st : state) : state :=
  {| errors := errors st ++ [m]; warnings := warnings st;
     anchors := anchors st; links := links st; trace := trace st |}.

Definition add_warning (m : string) (st : state) : state :=
  {| errors := errors st; warnings := warnings st ++ [m];
     anchors := anchors st; links := links st; trace := trace st |}.

Definition log (ev : event) (st : state) : state :=
  {| errors := errors st; warnings := warnings st;
     anchors := anchors st; links := links st; trace := trace st ++ [ev] |}.

Definition add_links (l : list (Path.t * string)) (st : state) : state :=
  {| errors := errors st; warnings := warnings st;
     anchors := anchors st; links := links st ++ l; trace := trace st |}.

(** [d.get(k)] *)
Fixpoint get (d : list (Path.t * list string)) (k : Path.t)
  : option (list string) :=
  match d with
  | [] => None
  | (k', v) :: r => if Path.eqb k k' then Some v else get r k
  end.

(** [d[k] = v] *)
Fixpoint put (d : list (Path.t * list string)) (k : Path.t) (v : list string)
  : list (Path.t * list string) :=
  match d with
  | [] => [(k, v)]
  | (k', v') :: r =>
      if Path.eqb k k' then (k', v) :: r else (k', v') :: put r k v
  end.

Definition set_anchors (k : Path.t) (v : list string) (st : state) : state :=
  {| errors := errors st; warnings := warnings st;
     anchors := put (anchors st) k v; links := links st; trace := trace st |}.

(** [k in self.anchors] *)
Definition indexed (st : state) (k : Path.t) : bool :=
  match get (anchors st) k with Some _ => true | None => false end.

(** [self.anchors.get(k, set())] *)
Definition anchors_of (st : state) (k : Path.t) : list string :=
  match get (anchors st) k with Some v => v | None => [] end.

Definition mem (x : string) (l : list string) : bool :=
  existsb (String.eqb x) l.

(** [s.add(x)] *)
Definition set_add (x : string) (s : list string) : list string :=
  if mem x s then s else s ++ [x].

(** [r'\[.*?\]\((.*?)\)'] *)
Definition md_pattern : pattern :=
  [Lit "["; Rep false 0 None is_dot; Lit "]("; Open;
   Rep false 0 None is_dot; Close; Lit ")"].

(** [r'^#+\s+(.+)$'] with [re.MULTILINE] *)
Definition heading_pattern : pattern :=
  [Bol; Rep true 1 None (Ascii.eqb "#"%char); Rep true 1 None is_space;
   Open; Rep true 1 None is_dot; Close; Eol].

Definition anchor_char (c : ascii) : bool :=
  (is_word c || Ascii.eqb c "-"%char)%bool.

(** Lines 49-50, and again lines 108-109: from heading text to anchor. *)
Definition derive_anchor (text : string) : string :=
  let anchor :=
    Str.replace_char "&"%char "and"
      (Str.replace_char " "%char "-" (Str.lower text)) in
  Re.sub_outside anchor_char anchor.

(** The loop over [heading_pattern.finditer(content)] *)
Definition anchors_in (content : string) : list string :=
  fold_left (fun acc heading => set_add (derive_anchor (grp1 heading)) acc)
    (finditer heading_pattern content) [].

Definition links_in (md_file : Path.t) (content : string)
  : list (Path.t * string) :=
  map (fun m => (md_file, grp1 m)) (finditer md_pattern content).

Definition unreadable_message (p : Path.t) (why : string) : string :=
  "Could not read " ++ Path.to_string p ++ ": " ++ why.

Definition nonempty (A : Type) (l : list A) : bool :=
  match l with [] => false | _ => true end.

(** Body of the inner loop of [extract_links] *)
Definition extract_file (f : fs) (st : state) (md_file : Path.t) : state :=
  let st := log (EvRead md_file) st in
  match read_text f md_file with
  | inr why => add_warning (unreadable_message md_file why) st
  | inl content =>
      let st := log (EvParse md_file) st in
      let found := anchors_in content in
      let st := if nonempty found then set_anchors md_file found st else st in
      add_links (links_in md_file content) st
  end.

Definition docs_dirs (project_root : Path.t) : list Path.t :=
  [Path.joinpath project_root "specs";
   Path.joinpath project_root "docs";
   Path.joinpath project_root "planning"].

(** Body of the outer loop of [extract_links]; [doc_dir.exists()] is
    called outside any [try]. *)
Definition extract_dir (f : fs) (st : state) (doc_dir : Path.t)
  : outcome state :=
  match exists_ f doc_dir with
  | Raise x => Raise x
  | Ok found =>
      let st := log (EvExists doc_dir) st in
      if negb found then Ok st
      else Ok (fold_left (extract_file f) (rglob_md f doc_dir) st)
  end.

Fixpoint extract_dirs (f : fs) (dirs : list Path.t) (st : state)
  : outcome state :=
  match dirs with
  | [] => Ok st
  | doc_dir :: rest =>
      match extract_dir f st doc_dir with
      | Ok st' => extract_dirs f rest st'
      | Raise x => Raise x
      end
  end.

(** [extract_links] *)
Definition extract_links (f : fs) (project_root : Path.t) (st : state)
  : outcome state :=
  extract_dirs f (docs_dirs project_root) st.

(** [f"{source_file.relative_to(self.project_root)}: ..."] *)
Definition shown (project_root source_file : Path.t) : option string :=
  match Path.relative_to source_file project_root with
  | Some rel => Some (Path.to_string rel)
  | None => None
  end.

Definition same_file_message (rel anchor : string) : string :=
  rel ++ ": " ++ "Anchor '#" ++ anchor ++ "' might not exist".

Definition not_found_message (rel file_path : string) : string :=
  rel ++ ": " ++ "File not found: " ++ file_path.

Definition cross_file_message (rel anchor file_path : string) : string :=
  rel ++ ": " ++ "Anchor '#" ++ anchor ++ "' not found in " ++ file_path.

(** Lines 79-83: [(file_path, anchor)], with [None] for a URL without [#] *)
Definition split_url (url : string) : string * option string :=
  if Str.has_char "#"%char url
  then let '(a, b) := Str.split_first "#"%char url in (a, Some b)
  else (url, None).

(** Lines 99-113: fill the cache for a target that is not a key of it *)
Definition ensure_indexed (f : fs) (target_file : Path.t) (st : state)
  : state :=
  if negb (indexed st target_file) then
    if String.eqb (Path.suffix target_file) ".md" then
      let st := log (EvRead target_file) st in
      match read_text f target_file with
      | inl content =>
          let st := log (EvParse target_file) st in
          set_anchors target_file (anchors_in content) st
      | inr why => add_warning (unreadable_message target_file why) st
      end
    else st
  else st.

(** Lines 90-119: what follows the two calls into the file system, for
    the resolved path [target_file] and the answer [found] of
    [target_file.exists()] *)
Definition checked_target (f : fs) (project_root source_file : Path.t)
    (file_path : string) (anchor : option string)
    (joined target_file : Path.t) (found : bool) (st : state)
  : outcome state :=
  let st := log (EvExists target_file) (log (EvResolve joined) st) in
  if negb found then
    match shown project_root source_file with
    | Some rel => Ok (add_error (not_found_message rel file_path) st)
    | None => Raise ValueError
    end
  else
    match anchor with
    | Some a =>
        if Str.truthy a then
          let st := ensure_indexed f target_file st in
          if negb (mem a (anchors_of st target_file)) then
            match shown project_root source_file with
            | Some rel => Ok (add_warning (cross_file_message rel a file_path) st)
            | None => Raise ValueError
            end
          else Ok st
        else Ok st
    | None => Ok st
    end.

(** Lines 86-119: a link with a non-empty [file_path].  [resolve] and
    [exists] are called outside any [try]: what they raise ends the
    run. *)
Definition validate_target (f : fs) (project_root source_file : Path.t)
    (file_path : string) (anchor : option string) (st : state)
  : outcome state :=
  let joined := Path.joinpath (Path.parent source_file) file_path in
  match resolve f joined with
  | Raise x => Raise x
  | Ok target_file =>
      match exists_ f target_file with
      | Raise x => Raise x
      | Ok found =>
          checked_target f project_root source_file file_path anchor
            joined target_file found st
      end
  end.

(** Body of the loop of [validate_links] *)
Definition validate_link (f : fs) (project_root : Path.t) (st : state)
    (link : Path.t * string) : outcome state :=
  let '(source_file, url) := link in
  if Str.startswith "http" url then Ok st
  else if Str.startswith "#" url then
    let anchor := String.substring 1 (String.length url - 1) url in
    if negb (mem anchor (anchors_of st source_file)) then
      match shown project_root source_file with
      | Some rel => Ok (add_warning (same_file_message rel anchor) st)
      | None => Raise ValueError
      end
    else Ok st
  else
    let '(file_path, anchor) := split_url url in
    if Str.truthy file_path
    then validate_target f project_root source_file file_path anchor st
    else Ok st.

Fixpoint validate_loop (f : fs) (project_root : Path.t)
    (l : list (Path.t * string)) (st : state) : outcome state :=
  match l with
  | [] => Ok st
  | link :: rest =>
      match validate_link f project_root st link with
      | Ok st' => validate_loop f project_root rest st'
      | Raise x => Raise x
      end
  end.

(** [validate_links]: the final attributes; the Boolean it returns is
    [len(self.errors) == 0] and [main] drops it. *)
Definition validate_links (f : fs) (project_root : Path.t) (st : state)
  : outcome state :=
  validate_loop f project_root (links st) st.

(** [report] *)
Definition report (st : state) : Z :=
  if nonempty (errors st) then 1 else 0.

(** [main], with the attributes at the end next to the exit code *)
Definition main (f : fs) (project_root : Path.t) : outcome (Z * state) :=
  match extract_links f project_root init with
  | Ok st =>
      match validate_links f project_root st with
      | Ok st' => Ok (report st', st')
      | Raise x => Raise x
      end
  | Raise x => Raise x
  end.

Definition process_status (f : fs) (project_root : Path.t) : Z :=
  exit_status
    (match main f project_root with
     | Ok (c, _) => Ok c
     | Raise x => Raise x
     end).

(** What the two calls into the file system give for the path part of a
    link: [Some found] when both answer, [None] when one of them
    raises. *)
Definition probe (f : fs) (source_file : Path.t) (file_path : string)
  : option bool :=
  match resolve f (Path.joinpath (Path.parent source_file) file_path) with
  | Ok target_file =>
      match exists_ f target_file with
      | Ok found => Some found
      | Raise _ => None
      end
  | Raise _ => None
  end.

(** A link that validation looks up in the file system: neither external
    nor a same-file anchor, with a non-empty path part. *)
Definition file_link (link : Path.t * string) : bool :=
  (negb (Str.startswith "http" (snd link))
   && negb (Str.startswith "#" (snd link))
   && Str.truthy (fst (split_url (snd link))))%bool.

(** Whether a link is a broken file link: a file link whose path part
    resolves to something that [exists] reports as absent. *)
Definition broken (f : fs) (link : Path.t * string) : bool :=
  (file_link link
   && match probe f (fst link) (fst (split_url (snd link))) with
      | Some found => negb found
      | None => false
      end)%bool.

(** Whether the file system answers the calls validation makes for a
    link. *)
Definition answered (f : fs) (link : Path.t * string) : bool :=
  (negb (file_link link)
   || match probe f (fst link) (fst (split_url (snd link))) with
      | Some _ => true
      | None => false
      end)%bool.

(** The messages [validate_links] owes to the broken links of a list. *)
Definition not_found_messages (f : fs) (project_root : Path.t)
    (l : list (Path.t * string)) : list string :=
  flat_map
    (fun link =>
       if broken f link then
         match shown project_root (fst link) with
         | Some rel => [not_found_message rel (fst (split_url (snd link)))]
         | None => []
         end
       else [])
    l.

(** A link whose source file can be shown relative to the project root. *)
Definition below_root (project_root : Path.t) (link : Path.t * string) : Prop :=
  shown project_root (fst link) <> None.

(** The attributes as [extract_links] leaves them: no error yet, and every
    link taken from a file below the project root. *)
Definition extracted (project_root : Path.t) (st : state) : Prop :=
  errors st = [] /\ Forall (below_root project_root) (links st).

(** A file system without symbolic links, given by the texts of its
    files and the directories to walk; used to run [main]. *)
Definition listed (l : list string) (p : Path.t) : bool :=
  existsb (String.eqb (Path.to_string p)) l.

Fixpoint content_of (files : list (string * string)) (p : Path.t)
  : string + string :=
  match files with
  | [] => inr "[Errno 2] No such file or directory"
  | (n, c) :: r =>
      if String.eqb n (Path.to_string p) then inl c else content_of r p
  end.

Definition under (d : Path.t) (n : string) : bool :=
  match Path.relative_to (Path.of_string n) d with
  | Some _ => String.eqb (Path.suffix (Path.of_string n)) ".md"
  | None => false
  end.

(** The longest name the file system takes ([NAME_MAX] of Linux). *)
Definition name_max : nat := 255.

Definition too_long (p : Path.t) : bool :=
  existsb (fun seg => Nat.ltb name_max (String.length seg)) (Path.segs p).

(** [exists] raises [OSError] (file name too long) for a path with a name
    above the limit, where [resolve] still answers. *)
Definition tree (dirs : list string) (files : list (string * string)) : fs :=
  {| exists_ := fun p =>
       if too_long p then Raise OSError
       else Ok (listed dirs p || listed (map fst files) p)%bool;
     read_text := content_of files;
     resolve := fun p => Ok (Path.normalize p);
     rglob_md := fun d =>
       if listed dirs d
       then map Path.of_string (filter (under d) (map fst files))
       else [] |}.

End Links.

(* ------------------------------------------------------------------ *)
(** ** Readings of the specification, and sample inputs                 *)
(* ------------------------------------------------------------------ *)

Module Scope.
Import Chars.

(** The characters that a second anchor derivation leaves alone. *)
Definition settled (c : ascii) : bool :=
  (Links.anchor_char c && Ascii.eqb (lower_char c) c)%bool.

(** Exclusion as the specification words it: the file name is exactly
    [README.md], or the path runs through a version-control or dependency
    directory (the three other entries of [EXCLUDE_PATTERNS]). *)
Definition claimed_excluded (p : Path.t) : bool :=
  (String.eqb (Path.name p) "README.md"
   || existsb (fun pat => Str.contains pat (Path.to_string p))
        ["__pycache__"; ".git"; "node_modules"])%bool.

(** The scope filter as the specification words it. *)
Definition claimed_in_scope (p : Path.t) : bool :=
  (String.eqb (Path.suffix p) ".md"
   && existsb (fun part => Metadata.mem part Metadata.DOCS_DIRS) (Path.parts p)
   && negb (claimed_excluded p))%bool.

End Scope.

Module Samples.
Import Chars.

Definition nl : string := String newline EmptyString.

Fixpoint text (lines : list string) : string :=
  match lines with
  | [] => EmptyString
  | l :: r => l ++ nl ++ text r
  end.

(** 2026-11-04 *)
Definition a_day : Z := Date.toordinal 2026 11 4.

(** A hook run in [/repo] on one staged file whose name git prints
    relative to the repository root. *)
Definition hook (staged : string) (content : string) : Metadata.env :=
  {| Metadata.cwd := Path.of_string "/repo";
     Metadata.read_text := fun p =>
       if String.eqb (Path.to_string p) staged then inl content
       else inr "[Errno 2] No such file or directory";
     Metadata.today := a_day;
     Metadata.git_diff := Some (staged ++ nl) |}.

Definition no_owner : string :=
  text ["# Guide"; "**Last Updated**: 2026-10-01"; "**Status**: Complete";
        "**Document Type**: Guide"].

Definition draft : string :=
  text ["# Guide"; "**Last Updated**: 2026-10-01"; "**Status**: Draft";
        "**Owner**: docs team"; "**Document Type**: Guide"].

Definition stale : string :=
  text ["# Guide"; "**Last Updated**: 2020-01-01"; "**Status**: Complete";
        "**Owner**: docs team"; "**Document Type**: Guide"].

Definition stale_draft_no_owner : string :=
  text ["# Guide"; "**Last Updated**: 2020-01-01"; "**Status**: Draft";
        "**Document Type**: Guide"].

Definition repo : Path.t := Path.of_string "/repo".

(** Two files under [/repo/docs]: one without any heading, and one whose
    links point into it. *)
Definition two_files : Links.fs :=
  Links.tree ["/repo"; "/repo/docs"]
    [("/repo/docs/a.md", text ["plain text"]);
     ("/repo/docs/b.md", text ["# B"; "[one](a.md#intro)"; "[two](a.md)";
                               "[three](gone.md)"; "[four]()";
                               "[five](https://example.org)";
                               "[six](a.md#usage)"; "[seven](#b)";
                               "[eight](#c)"])].

Definition b_md : Path.t := Path.of_string "/repo/docs/b.md".
Definition a_md : Path.t := Path.of_string "/repo/docs/a.md".

Definition is_parse_of (p : Path.t) (ev : Links.event) : bool :=
  match ev with
  | Links.EvParse q => Path.eqb p q
  | _ => false
  end.

(** How often the heading pattern ran over the content of [p]. *)
Definition parses (p : Path.t) (st : Links.state) : nat :=
  List.length (filter (is_parse_of p) (Links.trace st)).

End Samples.

(* ------------------------------------------------------------------ *)
(** ** Conditions used to state what the validators do                  *)
(* ------------------------------------------------------------------ *)

Module Conditions.
Import Chars.

(** The text of the exception [read_text] raised for [p], if it raised. *)
Definition read_failure (e : Metadata.env) (p : Path.t) : string :=
  match Metadata.read_text e p with
  | inr why => why
  | inl _ => EmptyString
  end.

(** A required field whose pattern finds nothing in [content]. *)
Definition unmatched (content : string) (field : string * Re.pattern) : bool :=
  match Re.search (snd field) content with
  | Some _ => false
  | None => true
  end.

(** The date of a complete file is no reason for a warning: it is not a
    calendar date, or it is at most 180 days back. *)
Definition recent_enough (e : Metadata.env) (found : list (string * string))
  : bool :=
  match Metadata.days_old_of e found with
  | Some days_old => days_old <=? 180
  | None => true
  end.

(** The status text of a complete file holds a word of the vocabulary. *)
Definition known_status (found : list (string * string)) : bool :=
  match Metadata.lookup "Status" found with
  | Some status_value =>
      existsb (fun s => Str.contains s status_value) Metadata.valid_statuses
  | None => true
  end.

(** A file the hook has nothing to say about: readable, complete, with a
    date that is recent enough and a known status. *)
Definition passes (e : Metadata.env) (p : Path.t) : bool :=
  match Metadata.read_text e p with
  | inl content =>
      match Metadata.missing_fields content with
      | [] => (recent_enough e (Metadata.found_fields content)
               && known_status (Metadata.found_fields content))%bool
      | _ :: _ => false
      end
  | inr _ => false
  end.

(** Every anchor of every cached set is a derived anchor: lower case, of
    word characters and hyphens. *)
Definition cache_derived (st : Links.state) : Prop :=
  forall k v, Links.get (Links.anchors st) k = Some v ->
              Forall (fun a => Str.all_chars Scope.settled a = true) v.

(** Every cached set has an anchor in it. *)
Definition cache_nonempty (st : Links.state) : Prop :=
  forall k v, Links.get (Links.anchors st) k = Some v -> v <> [].

(** What [extract_links] has established when it is done. *)
Definition harvested (f : Links.fs) (project_root : Path.t)
    (st : Links.state) : Prop :=
  Links.errors st = []
  /\ cache_nonempty st
  /\ cache_derived st
  /\ (forall src url, In (src, url) (Links.links st) ->
        exists d content,
          In d (Links.docs_dirs project_root)
          /\ Links.exists_ f d = Ok true
          /\ In src (Links.rglob_md f d)
          /\ Links.read_text f src = inl content
          /\ In url (map Re.grp1 (Re.finditer Links.md_pattern content)))
  /\ (forall w, In w (Links.warnings st) ->
        exists p why,
          Links.read_text f p = inr why
          /\ w = "Could not read " ++ Path.to_string p ++ ": " ++ why).

(** What a step of validation keeps of the state before it. *)
Definition extends (st st' : Links.state) : Prop :=
  Links.links st' = Links.links st
  /\ (exists es, Links.errors st' = (Links.errors st ++ es)%list)
  /\ (exists ws, Links.warnings st' = (Links.warnings st ++ ws)%list)
  /\ (forall k v, Links.get (Links.anchors st) k = Some v ->
                  Links.get (Links.anchors st') k = Some v)
  /\ (cache_derived st -> cache_derived st').

(** The loop of a repetition inside [Re.match_here], by name: [n]
    characters of the class are taken, [p'] is the rest of the pattern. *)
Definition rep_from (p' : Re.pattern) (greedy : bool) (lo : nat)
    (hi : option nat) (cls : ascii -> bool)
  : nat -> Re.cursor -> string -> option (string * Re.cursor) :=
  fix rep (n : nat) (k : Re.cursor) (s : string) {struct s} :=
    let more (_ : unit) :=
      match s with
      | String c r =>
          if (cls c && Re.below n hi)%bool then
            rep (S n)
              {| Re.prev := Some c; Re.gopen := Re.gopen k;
                 Re.group1 := Re.group1 k |} r
          else None
      | EmptyString => None
      end in
    let stop (_ : unit) :=
      if Nat.leb lo n then Re.match_here p' k s else None in
    if greedy
    then match more tt with Some v => Some v | None => stop tt end
    else match stop tt with Some v => Some v | None => more tt end.

(** Text without a closing parenthesis and without a line break. *)
Definition plain (g : string) : Prop :=
  Str.has_char ")" g = false /\ Str.has_char Chars.newline g = false.

(** A documentation tree in which a heading is linked with its own
    capitalisation, a file is linked that is no markdown file, and a
    file is linked twice with anchors. *)
Definition handbook : Links.fs :=
  Links.tree ["/repo"; "/repo/docs"; "/repo/docs/img"]
    [("/repo/docs/setup.md",
      Samples.text ["# Setup"; "## Install"; "[up](#Install)";
                    "[down](#install)"]);
     ("/repo/docs/index.md",
      Samples.text ["[a](setup.md#install)"; "[b](setup.md#Install)";
                    "[c](img/logo.svg#layer1)"; "[d](notes.txt#top)"]);
     ("/repo/docs/img/logo.svg", "<svg/>");
     ("/repo/README.md", Samples.text ["# Read me"; "## Usage"])].

Definition setup_md : Path.t := Path.of_string "/repo/docs/setup.md".
Definition index_md : Path.t := Path.of_string "/repo/docs/index.md".

(** [n] times the character [c]. *)
Fixpoint replicate (n : nat) (c : ascii) : string :=
  match n with
  | O => EmptyString
  | S m => String c (replicate m c)
  end.

(** A file name of 303 characters, too long for the file system. *)
Definition long_name : string := replicate 300 "a" ++ ".md".

(** A documentation tree whose only link names a file with that name,
    which does not exist. *)
Definition long_link : Links.fs :=
  Links.tree ["/repo"; "/repo/docs"]
    [("/repo/docs/a.md", "[spec](" ++ long_name ++ ")")].

(** A tree without any of the three documentation directories. *)
Definition bare : Links.fs :=
  Links.tree ["/repo"; "/repo/src"] [("/repo/src/notes.md", "# Notes")].

(** A hook run in [/repo] on several staged files. *)
Definition hook_on (files : list (string * string)) : Metadata.env :=
  {| Metadata.cwd := Path.of_string "/repo";
     Metadata.read_text := Links.content_of files;
     Metadata.today := Samples.a_day;
     Metadata.git_diff := Some (Samples.text (map fst files)) |}.

Definition complete : string :=
  Samples.text ["**Last Updated**: 2026-10-01"; "**Status**: In Progress";
                "**Owner**: docs team"; "**Document Type**: Guide"].

End Conditions.

(* ------------------------------------------------------------------ *)
(** * Properties                                                        *)
(* ------------------------------------------------------------------ *)

(** ** Strings *)

Lemma filter_chars_app (keep : ascii -> bool) (a b : string) :
  Str.filter_chars keep (a ++ b)
  = Str.filter_chars keep a ++ Str.filter_chars keep b.
Proof.
  induction a as [|c a IH]; simpl; [reflexivity|].
  destruct (keep c); simpl; now rewrite IH.
Qed.

Lemma all_chars_app (p : ascii -> bool) (a b : string) :
  Str.all_chars p (a ++ b) = (Str.all_chars p a && Str.all_chars p b)%bool.
Proof.
  induction a as [|c a IH]; simpl; [reflexivity|].
  now rewrite IH, andb_assoc.
Qed.

Lemma all_chars_filter (keep : ascii -> bool) (s : string) :
  Str.all_chars keep (Str.filter_chars keep s) = true.
Proof.
  induction s as [|c s IH]; simpl; [reflexivity|].
  destruct (keep c) eqn:K; simpl; [now rewrite K|assumption].
Qed.

Lemma str_app_assoc (a b c : string) : (a ++ b) ++ c = a ++ b ++ c.
Proof. induction a as [|x a IH]; simpl; congruence. Qed.

Lemma prefix_refl_app (p b : string) : String.prefix p (p ++ b) = true.
Proof.
  induction p as [|c p IH]; simpl.
  - now destruct b.
  - destruct (ascii_dec c c); [assumption|congruence].
Qed.

Lemma contains_prefix (p s : string) :
  String.prefix p s = true -> Str.contains p s = true.
Proof.
  intros H. destruct s; cbn [Str.contains]; [assumption|]. now rewrite H.
Qed.

Lemma contains_app_l (p a s : string) :
  Str.contains p s = true -> Str.contains p (a ++ s) = true.
Proof.
  intros H. induction a as [|c a IH]; [assumption|].
  cbn [append Str.contains]. rewrite IH. apply orb_true_r.
Qed.

Lemma contains_self_suffix (p a : string) : Str.contains p (a ++ p) = true.
Proof.
  apply contains_app_l, contains_prefix.
  rewrite <- (prefix_refl_app p ""). f_equal.
  induction p; simpl; congruence.
Qed.

(** ** Anchor derivation *)

Section AnchorDerivation.
Import Chars Links Scope.

Ltac each_char c :=
  destruct c as [[] [] [] [] [] [] [] []]; vm_compute; try reflexivity.

Lemma derive_anchor_cons (c : ascii) (r : string) :
  derive_anchor (String c r)
  = derive_anchor (String c EmptyString) ++ derive_anchor r.
Proof.
  unfold derive_anchor, Re.sub_outside, Str.lower. cbn [Str.map_chars].
  set (rest := Str.replace_char "&" "and"
                 (Str.replace_char " " "-" (Str.map_chars lower_char r))).
  cbn [Str.replace_char].
  destruct (Ascii.eqb (lower_char c) " ") eqn:E1.
  - cbn [append Str.replace_char Ascii.eqb Bool.eqb].
    cbn [Str.filter_chars]. fold rest.
    destruct (anchor_char "-"); reflexivity.
  - cbn [Str.replace_char].
    destruct (Ascii.eqb (lower_char c) "&") eqn:E2.
    + fold rest. now rewrite !filter_chars_app.
    + cbn [Str.filter_chars]. fold rest.
      destruct (anchor_char (lower_char c)); reflexivity.
Qed.

Lemma derive_anchor_char_settled (c : ascii) :
  Str.all_chars settled (derive_anchor (String c EmptyString)) = true.
Proof. each_char c. Qed.

Lemma derive_anchor_settled_char (c : ascii) :
  settled c = true -> derive_anchor (String c EmptyString) = String c EmptyString.
Proof. each_char c; intros H; discriminate H. Qed.

Lemma derive_anchor_all_settled (text : string) :
  Str.all_chars settled (derive_anchor text) = true.
Proof.
  induction text as [|c r IH]; [reflexivity|].
  rewrite derive_anchor_cons, all_chars_app, IH.
  now rewrite derive_anchor_char_settled.
Qed.

Lemma derive_anchor_fixes_settled (s : string) :
  Str.all_chars settled s = true -> derive_anchor s = s.
Proof.
  induction s as [|c r IH]; [reflexivity|].
  cbn [Str.all_chars]. intros [Hc Hr]%andb_prop.
  rewrite derive_anchor_cons, (derive_anchor_settled_char c Hc), (IH Hr).
  reflexivity.
Qed.

(** C5.  The anchor of a heading text is the text lower-cased, then with
    each space replaced by a hyphen, then with each ampersand replaced by
    the word and, then stripped of every character that is neither a word
    character nor a hyphen.  The result consists of word characters and
    hyphens only, deriving the anchor of an anchor gives the same anchor
    again, and the text Getting Started & FAQ gives
    getting-started-and-faq. *)
Theorem anchor_derivation_idempotent :
  (forall text,
      derive_anchor text
      = Str.filter_chars (fun c => (is_word c || Ascii.eqb c "-")%bool)
          (Str.replace_char "&" "and"
             (Str.replace_char " " "-" (Str.lower text))))
  /\ (forall text, Str.all_chars anchor_char (derive_anchor text) = true)
  /\ (forall text, derive_anchor (derive_anchor text) = derive_anchor text)
  /\ derive_anchor "Getting Started & FAQ" = "getting-started-and-faq".
Proof.
  repeat split.
  - intros text. apply all_chars_filter.
  - intros text. apply derive_anchor_fixes_settled, derive_anchor_all_settled.
Qed.

End AnchorDerivation.

(** ** The scope filter of the metadata hook *)

Section ScopeFilter.
Import Metadata Scope.

Lemma mem_In (x : string) (l : list string) : mem x l = true <-> In x l.
Proof.
  unfold mem. rewrite existsb_exists. split.
  - intros (y & Hy & E). apply String.eqb_eq in E. now subst.
  - intros H. exists x. split; [assumption|apply String.eqb_refl].
Qed.

Lemma join_ends_with_last (sep : string) (l : list string) :
  l <> [] -> exists a, Str.join sep l = a ++ last l EmptyString.
Proof.
  induction l as [|x r IH]; [congruence|]. intros _.
  destruct r as [|y r'].
  - now exists EmptyString.
  - destruct IH as [a Ha]; [discriminate|].
    exists (x ++ sep ++ a).
    change (Str.join sep (x :: y :: r')) with (x ++ sep ++ Str.join sep (y :: r')).
    change (last (x :: y :: r') EmptyString) with (last (y :: r') EmptyString).
    now rewrite Ha, !str_app_assoc.
Qed.

Lemma to_string_ends_with_name (p : Path.t) :
  Path.name p <> EmptyString ->
  exists a, Path.to_string p = a ++ Path.name p.
Proof.
  unfold Path.name, Path.to_string. intros H.
  assert (Hs : Path.segs p <> []) by (intros E; rewrite E in H; now apply H).
  destruct (join_ends_with_last "/" Hs) as [a Ha].
  exists (Path.root p ++ a).
  rewrite str_app_assoc, <- Ha.
  destruct (Path.root p); [|reflexivity].
  destruct (Path.segs p); [congruence|reflexivity].
Qed.

Lemma named_readme_is_excluded (p : Path.t) :
  Path.name p = "README.md" -> should_check_file p = false.
Proof.
  intros H. unfold should_check_file.
  destruct (negb (Path.suffix p =? ".md")%string); [reflexivity|].
  destruct (negb (existsb _ (Path.parts p))); [reflexivity|].
  destruct (to_string_ends_with_name p) as [a Ha]; [rewrite H; discriminate|].
  unfold EXCLUDE_PATTERNS. cbn [existsb].
  rewrite Ha, H, contains_self_suffix. reflexivity.
Qed.

(** C7, as the code has it.  A path is in scope exactly when its suffix is
    .md, one of its parts is a documentation directory name, and none of
    the exclusion patterns occurs anywhere in the text of the path.  A
    file named README.md is therefore never in scope; the converse does
    not hold, any path whose text contains README.md is excluded. *)
Theorem scope_filter_by_substring (p : Path.t) :
  (should_check_file p = true <->
     Path.suffix p = ".md"
     /\ (exists part, In part (Path.parts p) /\ In part DOCS_DIRS)
     /\ (forall pat, In pat EXCLUDE_PATTERNS ->
           Str.contains pat (Path.to_string p) = false))
  /\ (Path.name p = "README.md" -> should_check_file p = false)
  /\ (Str.contains "README.md" (Path.to_string p) = true ->
      should_check_file p = false).
Proof.
  split; [|split; [apply named_readme_is_excluded|]].
  - unfold should_check_file.
    destruct (Path.suffix p =? ".md")%string eqn:Hs; cbn [negb].
    2:{ split; [discriminate|]. intros (E & _). apply String.eqb_eq in E.
        congruence. }
    apply String.eqb_eq in Hs.
    destruct (existsb (fun part => mem part DOCS_DIRS) (Path.parts p)) eqn:Hd;
      cbn [negb].
    2:{ split; [discriminate|]. intros (_ & (part & Hp & Hin) & _).
        assert (existsb (fun part => mem part DOCS_DIRS) (Path.parts p) = true).
        { apply existsb_exists. exists part. split; [assumption|].
          now apply mem_In. }
        congruence. }
    apply existsb_exists in Hd. destruct Hd as (part & Hp & Hm).
    apply mem_In in Hm.
    destruct (existsb (fun pat => Str.contains pat (Path.to_string p))
                EXCLUDE_PATTERNS) eqn:He.
    + split; [discriminate|]. intros (_ & _ & Hall).
      apply existsb_exists in He. destruct He as (pat & Hin & Hc).
      rewrite (Hall pat Hin) in Hc. discriminate.
    + split; [|reflexivity]. intros _. split; [assumption|]. split.
      * now exists part.
      * intros pat Hin.
        destruct (Str.contains pat (Path.to_string p)) eqn:Hc; [|reflexivity].
        assert (existsb (fun pat => Str.contains pat (Path.to_string p))
                  EXCLUDE_PATTERNS = true)
          by (apply existsb_exists; now exists pat).
        congruence.
  - intros Hc. unfold should_check_file.
    destruct (negb (Path.suffix p =? ".md")%string); [reflexivity|].
    destruct (negb (existsb _ (Path.parts p))); [reflexivity|].
    unfold EXCLUDE_PATTERNS. cbn [existsb]. now rewrite Hc.
Qed.

(** C7, as the claim words it, fails: [docs/OLD_README.md] is a markdown
    file in a documentation directory, its name is not README.md and it
    lies in no excluded directory, yet the filter rejects it. *)
Lemma scope_filter_rejects_other_readme :
  claimed_in_scope (Path.of_string "docs/OLD_README.md") = true
  /\ Path.name (Path.of_string "docs/OLD_README.md") = "OLD_README.md"
  /\ should_check_file (Path.of_string "docs/OLD_README.md") = false.
Proof. repeat split. Qed.

End ScopeFilter.

(** ** The metadata hook *)

Section MetadataHook.
Import Metadata Samples.

Variable e : env.

Lemma scan_fields (content : string) :
  scan REQUIRED_FIELDS content = (missing_fields content, found_fields content).
Proof. unfold missing_fields, found_fields. now destruct (scan _ _). Qed.

(** A path that git printed relative to the repository root cannot be
    shown relative to an absolute working directory. *)
Lemma relative_path_not_shown (filepath : Path.t) :
  Path.root filepath = EmptyString -> Path.root (cwd e) <> EmptyString ->
  shown e filepath = None.
Proof.
  intros Hf Hc. unfold shown, Path.relative_to. rewrite Hf.
  destruct (Path.root (cwd e)); [congruence|reflexivity].
Qed.

(** What [validate_file] does with a readable file that lacks a field. *)
Lemma validate_file_missing (filepath : Path.t) (st : state) (content : string) :
  read_text e filepath = inl content ->
  missing_fields content <> [] ->
  validate_file e filepath st
  = match shown e filepath with
    | Some rel =>
        (Ok false, add_error (missing_message rel (missing_fields content)) st)
    | None => (Raise ValueError, st)
    end.
Proof.
  intros Hr Hm. unfold validate_file. rewrite Hr, scan_fields.
  destruct (missing_fields content); [congruence|reflexivity].
Qed.

Lemma check_recent_errors (filepath : Path.t) found (st : state) :
  errors (check_recent e filepath found st) = errors st.
Proof.
  unfold check_recent. destruct (days_old_of e found); [|reflexivity].
  destruct (180 <? z); [|reflexivity].
  now destruct (shown e filepath).
Qed.

Lemma check_status_errors (filepath : Path.t) found (st st' : state) :
  check_status e filepath found st = Ok st' -> errors st' = errors st.
Proof.
  unfold check_status. destruct (lookup "Status" found); [|congruence].
  destruct (negb _); [|congruence].
  destruct (shown e filepath); [|discriminate].
  intros H. injection H as <-. reflexivity.
Qed.

(** The staleness check on a file whose path can be shown: one warning
    above 180 days, none up to 180 days. *)
Lemma check_recent_shown (filepath : Path.t) found (st : state)
    (rel : string) (days_old : Z) :
  shown e filepath = Some rel ->
  days_old_of e found = Some days_old ->
  check_recent e filepath found st
  = if 180 <? days_old then add_warning (stale_message rel days_old) st else st.
Proof. intros Hs Hd. unfold check_recent. now rewrite Hd, Hs. Qed.

(** X1.  Whenever [run] returns, it returns 1 with errors recorded or 0
    with none; the warnings play no part. *)
Lemma run_returns_by_errors (c : Z) (st : state) :
  run e = (Ok c, st) ->
  (c = 1 /\ errors st <> []) \/ (c = 0 /\ errors st = []).
Proof.
  unfold run. destruct (get_staged_files e); [intros H; injection H as <- <-; now right|].
  destruct (filter should_check_file (t :: l));
    [intros H; injection H as <- <-; now right|].
  destruct (validate_all e (t0 :: l0) init) as [[u|x] st1]; [|discriminate].
  destruct (errors st1) eqn:He; intros H; injection H as <- <-.
  - now right.
  - left. split; [reflexivity|]. rewrite He. discriminate.
Qed.

(** Nothing staged, or nothing staged that is in scope: 0, with no error
    and no warning. *)
Lemma run_nothing_to_check :
  filter should_check_file (get_staged_files e) = [] ->
  run e = (Ok 0, init).
Proof.
  unfold run. intros H. destruct (get_staged_files e); [reflexivity|].
  now rewrite H.
Qed.

(** A staged file named relative to the repository root, read under an
    absolute working directory: a missing field raises instead of being
    recorded, and an old date passes without a warning. *)
Lemma staged_missing_field_raises
    (filepath : Path.t) (st : state) (content : string) :
  Path.root filepath = EmptyString -> Path.root (cwd e) <> EmptyString ->
  read_text e filepath = inl content ->
  missing_fields content <> [] ->
  validate_file e filepath st = (Raise ValueError, st).
Proof.
  intros Hf Hc Hr Hm. rewrite (validate_file_missing _ st Hr Hm).
  now rewrite (relative_path_not_shown _ Hf Hc).
Qed.

Lemma staged_stale_date_is_silent (filepath : Path.t) found (st : state) :
  Path.root filepath = EmptyString -> Path.root (cwd e) <> EmptyString ->
  check_recent e filepath found st = st.
Proof.
  intros Hf Hc. unfold check_recent.
  rewrite (relative_path_not_shown _ Hf Hc).
  destruct (days_old_of e found); [|reflexivity].
  now destruct (180 <? z).
Qed.

(** C9.  A readable file that lacks a required field gets no warning at
    all from [validate_file], neither for an old date nor for an unknown
    status, and the call does not return [True]. *)
Theorem missing_field_preempts_warnings
    (filepath : Path.t) (st : state) (content : string) :
  read_text e filepath = inl content ->
  missing_fields content <> [] ->
  warnings (snd (validate_file e filepath st)) = warnings st
  /\ (fst (validate_file e filepath st) = Ok false
      \/ fst (validate_file e filepath st) = Raise ValueError).
Proof.
  intros Hr Hm. rewrite (validate_file_missing _ st Hr Hm).
  destruct (shown e filepath); cbn [fst snd]; auto.
Qed.

End MetadataHook.

(** ** Runs of the hook on one staged file *)

Section HookRuns.
Import Metadata Samples.

(** C9 at [/repo/docs/guide.md], a file 2499 days old with the status
    Draft and without an owner. *)
Lemma missing_field_preempts_warnings_witness :
  missing_fields stale_draft_no_owner = ["Owner"]
  /\ days_old_of (hook "/repo/docs/guide.md" stale_draft_no_owner)
       (found_fields stale_draft_no_owner) = Some 2499
  /\ warnings (snd (validate_file (hook "/repo/docs/guide.md" stale_draft_no_owner)
                      (Path.of_string "/repo/docs/guide.md") init)) = []
  /\ (fst (validate_file (hook "/repo/docs/guide.md" stale_draft_no_owner)
             (Path.of_string "/repo/docs/guide.md") init) = Ok false
      \/ fst (validate_file (hook "/repo/docs/guide.md" stale_draft_no_owner)
                (Path.of_string "/repo/docs/guide.md") init) = Raise ValueError).
Proof.
  split; [vm_compute; reflexivity|]. split; [vm_compute; reflexivity|].
  apply (@missing_field_preempts_warnings
           (hook "/repo/docs/guide.md" stale_draft_no_owner)
           (Path.of_string "/repo/docs/guide.md") init stale_draft_no_owner).
  - vm_compute; reflexivity.
  - vm_compute; discriminate.
Defined.

(** The hook on a path given as an absolute path below the working
    directory: the error names the missing field, the status is 1. *)
Example run_absolute_no_owner :
  run (hook "/repo/docs/guide.md" no_owner)
  = (Ok 1, {| errors := ["docs/guide.md: Missing metadata: Owner"];
              warnings := [] |}).
Proof. vm_compute; reflexivity. Qed.

Example run_absolute_stale :
  run (hook "/repo/docs/guide.md" stale)
  = (Ok 0, {| errors := [];
              warnings := ["docs/guide.md: Last Updated is 2499 days old. Consider updating."] |}).
Proof. vm_compute; reflexivity. Qed.

(** C1 on the code.  Git prints [docs/guide.md]; the file is in scope and
    lacks the owner.  [relative_to] raises while the message is being
    built, so no error is recorded and [run] does not return; the process
    ends with the status of an uncaught exception. *)
Theorem missing_field_on_staged_path_raises :
  get_staged_files (hook "docs/guide.md" no_owner)
    = [Path.of_string "docs/guide.md"]
  /\ should_check_file (Path.of_string "docs/guide.md") = true
  /\ missing_fields no_owner = ["Owner"]
  /\ run (hook "docs/guide.md" no_owner) = (Raise ValueError, init)
  /\ process_status (hook "docs/guide.md" no_owner) = 1.
Proof. vm_compute. repeat split. Qed.

(** C2 on the code.  The staged file has all four fields and a status
    outside the vocabulary, which is a matter for a warning only.
    [relative_to] raises while the warning is being built: nothing is
    recorded, [run] does not return, and the process status is 1 with an
    empty list of errors. *)
Theorem unknown_status_on_staged_path_fails :
  should_check_file (Path.of_string "docs/guide.md") = true
  /\ missing_fields draft = []
  /\ run (hook "docs/guide.md" draft) = (Raise ValueError, init)
  /\ process_status (hook "docs/guide.md" draft) = 1.
Proof. vm_compute. repeat split. Qed.

(** C6 on the code.  The staged file has all four fields, a known status
    and a date 2499 days back.  The warning is built inside the [try]
    whose handler catches [ValueError], so the exception of [relative_to]
    is swallowed with the warning: [run] returns 0 and no staleness
    warning exists. *)
Theorem stale_date_on_staged_path_is_silent :
  should_check_file (Path.of_string "docs/guide.md") = true
  /\ missing_fields stale = []
  /\ days_old_of (hook "docs/guide.md" stale) (found_fields stale) = Some 2499
  /\ run (hook "docs/guide.md" stale) = (Ok 0, init).
Proof. vm_compute. repeat split. Qed.

End HookRuns.

(** ** The link validator: one link *)

Section OneLink.
Import Links.

Variable f : fs.
Variable project_root : Path.t.

Lemma ensure_indexed_keeps (target : Path.t) (st : state) :
  errors (ensure_indexed f target st) = errors st
  /\ links (ensure_indexed f target st) = links st.
Proof.
  unfold ensure_indexed.
  destruct (negb (indexed st target)); [|now split].
  destruct (Path.suffix target =? ".md")%string; [|now split].
  destruct (read_text f target); now split.
Qed.

Lemma hash_prefix_has_hash (url : string) :
  Str.startswith "#" url = true -> Str.has_char "#" url = true.
Proof.
  destruct url as [|c r]; [discriminate|]. unfold Str.startswith.
  cbn [String.prefix Str.has_char].
  destruct (ascii_dec "#" c) as [<-|]; [reflexivity|discriminate].
Qed.

(** What one pass of the loop body does to the errors, when the file
    system answers. *)
Lemma validate_link_errors (st : state) (src : Path.t) (url rel : string) :
  shown project_root src = Some rel ->
  answered f (src, url) = true ->
  exists st',
    validate_link f project_root st (src, url) = Ok st'
    /\ errors st'
       = (errors st ++ not_found_messages f project_root [(src, url)])%list
    /\ links st' = links st.
Proof.
  intros Hs Ha. unfold not_found_messages, broken, validate_link.
  unfold answered in Ha. unfold file_link in *.
  cbn [flat_map fst snd] in *. rewrite Hs, ?app_nil_r.
  destruct (Str.startswith "http" url); cbn [negb andb].
  { exists st. now rewrite app_nil_r. }
  destruct (Str.startswith "#" url); cbn [negb andb].
  { destruct (negb (mem _ (anchors_of st src)));
      eexists; (split; [reflexivity|]); cbn; now rewrite app_nil_r. }
  destruct (split_url url) as [file_path anchor]. cbn [fst] in *.
  destruct (Str.truthy file_path); cbn [andb orb negb] in *.
  2:{ exists st. now rewrite app_nil_r. }
  unfold validate_target. unfold probe in *.
  destruct (resolve f _) as [target|]; [|discriminate].
  destruct (exists_ f target) as [found|]; [|discriminate].
  unfold checked_target. rewrite Hs.
  destruct found; cbn [negb].
  - destruct anchor as [a|].
    2:{ eexists. split; [reflexivity|]. cbn. now rewrite app_nil_r. }
    destruct (Str.truthy a).
    2:{ eexists. split; [reflexivity|]. cbn. now rewrite app_nil_r. }
    match goal with
    | |- context [ensure_indexed f ?t ?s] =>
        destruct (ensure_indexed_keeps t s) as [He Hl];
        destruct (negb (mem a (anchors_of (ensure_indexed f t s) t)))
    end; eexists; (split; [reflexivity|]); cbn [errors links add_warning];
      rewrite ?He, ?Hl; cbn; now rewrite app_nil_r.
  - eexists. split; [reflexivity|]. now cbn.
Qed.

(** C10.  A link with an empty target leaves the validator exactly as it
    was: no error, no warning, no access to the file system, nothing
    cached.  The link pattern does produce such links: [text]() is a link
    with the empty target. *)
Theorem empty_target_is_accepted (st : state) (src : Path.t) :
  validate_link f project_root st (src, EmptyString) = Ok st
  /\ links_in src "[text]()" = [(src, EmptyString)].
Proof. split; reflexivity. Qed.

(** X18.  The cases of a link of a source file that lies below the
    project root.  A target that starts with http leaves the validator
    as it was.  For a target that is neither external nor a same-file
    anchor and has a path part: if [resolve] or [exists] raises, the
    exception ends the call and nothing is recorded; if [exists] says
    the resolved path is absent, one error is appended and no warning.
    For a target without anchor whose resolved path [exists] reports as
    present, neither an error nor a warning is appended. *)
Theorem link_target_cases (st : state) (src : Path.t) (url rel : string) :
  shown project_root src = Some rel ->
  (Str.startswith "http" url = true ->
   validate_link f project_root st (src, url) = Ok st)
  /\ (Str.startswith "http" url = false ->
      Str.startswith "#" url = false ->
      Str.truthy (fst (split_url url)) = true ->
      (forall x,
          resolve f (Path.joinpath (Path.parent src) (fst (split_url url)))
            = Raise x ->
          validate_link f project_root st (src, url) = Raise x)
      /\ (forall target x,
            resolve f (Path.joinpath (Path.parent src) (fst (split_url url)))
              = Ok target ->
            exists_ f target = Raise x ->
            validate_link f project_root st (src, url) = Raise x)
      /\ (forall target,
            resolve f (Path.joinpath (Path.parent src) (fst (split_url url)))
              = Ok target ->
            exists_ f target = Ok false ->
            exists st',
              validate_link f project_root st (src, url) = Ok st'
              /\ errors st'
                 = (errors st
                    ++ [not_found_message rel (fst (split_url url))])%list
              /\ warnings st' = warnings st))
  /\ (Str.has_char "#" url = false ->
      forall target,
        resolve f (Path.joinpath (Path.parent src) url) = Ok target ->
        exists_ f target = Ok true ->
        exists st',
          validate_link f project_root st (src, url) = Ok st'
          /\ errors st' = errors st
          /\ warnings st' = warnings st).
Proof.
  intros Hs. split; [|split].
  - intros Hh. unfold validate_link. now rewrite Hh.
  - intros Hh Ha Hp. unfold validate_link. rewrite Hh, Ha.
    destruct (split_url url) as [file_path anchor]. cbn [fst] in *.
    rewrite Hp. unfold validate_target. split; [|split].
    + intros x Hr. now rewrite Hr.
    + intros target x Hr He. now rewrite Hr, He.
    + intros target Hr He. rewrite Hr, He. unfold checked_target.
      rewrite Hs. cbn [negb]. eexists. split; [reflexivity|]. now split.
  - intros Hn target Hr He. unfold validate_link.
    destruct (Str.startswith "http" url); [now exists st|].
    destruct (Str.startswith "#" url) eqn:Ha.
    { apply hash_prefix_has_hash in Ha. congruence. }
    unfold split_url. rewrite Hn.
    destruct (Str.truthy url); [|now exists st].
    unfold validate_target. rewrite Hr, He. unfold checked_target.
    cbn [negb]. eexists. split; [reflexivity|]. now split.
Qed.

End OneLink.

(** ** The link validator: anchors, and the whole run *)

Section AnchorIssues.
Import Links.

Variable f : fs.
Variable project_root : Path.t.

(** X20.  A same-file anchor is looked up, as written, in the anchors
    cached for the source file: when it is there the validator stays as
    it was, when it is not exactly one warning is appended; in neither
    case is an error recorded or the file system touched. *)
Theorem same_file_anchor (st : state) (src : Path.t) (url rel : string) :
  shown project_root src = Some rel ->
  Str.startswith "http" url = false ->
  Str.startswith "#" url = true ->
  validate_link f project_root st (src, url)
  = Ok (let anchor := String.substring 1 (String.length url - 1) url in
        if mem anchor (anchors_of st src) then st
        else {| errors := errors st;
                warnings :=
                  warnings st
                  ++ [rel ++ ": " ++ "Anchor '#" ++ anchor
                          ++ "' might not exist"];
                anchors := anchors st;
                links := links st;
                trace := trace st |}).
Proof.
  intros Hs Hh Ha. unfold validate_link. rewrite Hh, Ha, Hs. cbn zeta.
  now destruct (mem _ _).
Qed.

(** X21.  An anchor into another file that [exists] reports as present
    is looked up, as written, in the anchors of that file, which are
    computed first if the file is not a key of the cache: when the
    anchor is there nothing is appended, when it is not exactly one
    warning is appended; the errors stay as they are. *)
Theorem cross_file_anchor (st : state) (src target : Path.t)
    (url rel file_path a : string) :
  shown project_root src = Some rel ->
  Str.startswith "http" url = false ->
  Str.startswith "#" url = false ->
  split_url url = (file_path, Some a) ->
  Str.truthy file_path = true ->
  Str.truthy a = true ->
  resolve f (Path.joinpath (Path.parent src) file_path) = Ok target ->
  exists_ f target = Ok true ->
  exists st',
    validate_link f project_root st (src, url) = Ok st'
    /\ errors st' = errors st
    /\ let st1 :=
         ensure_indexed f target
           (log (EvExists target)
              (log (EvResolve (Path.joinpath (Path.parent src) file_path)) st)) in
       st' = if mem a (anchors_of st1 target) then st1
             else {| errors := errors st1;
                     warnings :=
                       warnings st1
                       ++ [rel ++ ": " ++ "Anchor '#" ++ a
                               ++ "' not found in " ++ file_path];
                     anchors := anchors st1;
                     links := links st1;
                     trace := trace st1 |}.
Proof.
  intros Hs Hh Ha Hu Hp Ht Hr He. unfold validate_link.
  rewrite Hh, Ha, Hu, Hp. unfold validate_target. rewrite Hr, He.
  unfold checked_target. rewrite Ht, Hs. cbn [negb].
  match goal with
  | |- context [ensure_indexed f ?t ?s] =>
      destruct (@ensure_indexed_keeps f t s) as [Hk _];
      destruct (mem a (anchors_of (ensure_indexed f t s) t))
  end; cbn [negb]; eexists; (split; [reflexivity|]); split;
    try reflexivity; cbn [errors add_warning]; now rewrite Hk.
Qed.

End AnchorIssues.

Section WholeRun.
Import Links.

Variable f : fs.
Variable project_root : Path.t.

Local Abbreviation below_root := (Links.below_root project_root).
Local Abbreviation extracted := (Links.extracted project_root).

Lemma not_found_messages_cons (link : Path.t * string) rest :
  not_found_messages f project_root (link :: rest)
  = (not_found_messages f project_root [link]
     ++ not_found_messages f project_root rest)%list.
Proof. unfold not_found_messages. cbn [flat_map]. now rewrite app_nil_r. Qed.

Lemma validate_loop_errors (l : list (Path.t * string)) :
  Forall below_root l ->
  (forall link, In link l -> answered f link = true) ->
  forall st, exists st',
    validate_loop f project_root l st = Ok st'
    /\ errors st' = (errors st ++ not_found_messages f project_root l)%list
    /\ links st' = links st.
Proof.
  induction 1 as [|[src url] rest Hb _ IH]; intros Ha st.
  - exists st. cbn. now rewrite app_nil_r.
  - unfold Links.below_root in Hb. cbn [fst] in Hb.
    destruct (shown project_root src) as [rel|] eqn:Hs; [|congruence].
    destruct (@validate_link_errors f project_root st src url rel Hs)
      as (st1 & H1 & E1 & L1); [apply Ha; now left|].
    destruct (IH (fun link Hin => Ha link (or_intror Hin)) st1)
      as (st2 & H2 & E2 & L2).
    exists st2. cbn [validate_loop]. rewrite H1. split; [assumption|].
    split; [|congruence].
    now rewrite E2, E1, (not_found_messages_cons (src, url) rest), app_assoc.
Qed.

Lemma not_found_messages_nil (l : list (Path.t * string)) :
  Forall below_root l ->
  (not_found_messages f project_root l = []
   <-> forall link, In link l -> broken f link = false).
Proof.
  induction 1 as [|link rest Hb _ IH].
  - split; [intros _ ? []|reflexivity].
  - rewrite not_found_messages_cons. unfold Links.below_root in Hb.
    unfold not_found_messages at 1. cbn [flat_map]. rewrite app_nil_r.
    destruct (shown project_root (fst link)) eqn:Hs; [|congruence].
    destruct (broken f link) eqn:B.
    + split; [discriminate|]. intros H.
      rewrite (H link) in B; [discriminate|now left].
    + cbn [app]. rewrite IH. split.
      * intros H x [<-|Hx]; auto.
      * intros H x Hx. apply H. now right.
Qed.

Hypothesis rglob_below :
  forall d p, In p (rglob_md f d) -> Path.relative_to p d <> None.

Lemma list_prefix_app (a b l : list string) :
  Path.list_prefix (a ++ b) l = true -> Path.list_prefix a l = true.
Proof.
  revert l. induction a as [|x a IH]; intros l; [reflexivity|].
  destruct l as [|y l]; cbn; [discriminate|].
  intros [Hx Hr]%andb_prop. rewrite Hx. now apply IH.
Qed.

Lemma below_docs_dir (d p : Path.t) :
  In d (docs_dirs project_root) -> Path.relative_to p d <> None ->
  shown project_root p <> None.
Proof.
  intros Hd Hp. unfold shown.
  assert (E : exists name,
             d = {| Path.root := Path.root project_root;
                    Path.segs := Path.segs project_root ++ [name] |}).
  { destruct Hd as [<-|[<-|[<-|[]]]]; eexists; reflexivity. }
  destruct E as [name ->]. unfold Path.relative_to in *. cbn [Path.root Path.segs] in Hp.
  destruct (Path.root p =? Path.root project_root)%string; [|now cbn in Hp].
  cbn [andb] in *.
  destruct (Path.list_prefix (Path.segs project_root ++ [name]) (Path.segs p))
    eqn:Hl; [|congruence].
  rewrite (list_prefix_app _ _ _ Hl). discriminate.
Qed.

Lemma extract_file_extracted (st : state) (md_file : Path.t) :
  extracted st -> shown project_root md_file <> None ->
  extracted (extract_file f st md_file).
Proof.
  intros [He Hl] Hs. unfold extract_file, Links.extracted.
  destruct (read_text f md_file) as [content|why]; [|now split].
  destruct (nonempty (anchors_in content)); cbn [errors links add_links log set_anchors];
    (split; [assumption|]); apply Forall_app; (split; [assumption|]);
    unfold links_in; apply Forall_forall; intros link Hin;
    apply in_map_iff in Hin; destruct Hin as (m & <- & _); exact Hs.
Qed.

Lemma extract_files_extracted (files : list Path.t) :
  forall st, extracted st ->
  (forall p, In p files -> shown project_root p <> None) ->
  extracted (fold_left (extract_file f) files st).
Proof.
  induction files as [|p rest IH]; intros st Hst Hall; [assumption|].
  cbn [fold_left]. apply IH.
  - apply extract_file_extracted; [assumption|]. apply Hall. now left.
  - intros q Hq. apply Hall. now right.
Qed.

Lemma extract_dirs_extracted (dirs : list Path.t) :
  (forall d, In d dirs -> In d (docs_dirs project_root)) ->
  forall st st', extracted st -> extract_dirs f dirs st = Ok st' ->
                 extracted st'.
Proof.
  induction dirs as [|d rest IH]; intros Hsub st st' Hst; cbn [extract_dirs].
  - intros H. now injection H as <-.
  - destruct (extract_dir f st d) as [st1|] eqn:E; [|discriminate].
    apply IH; [intros; apply Hsub; now right|].
    unfold extract_dir in E.
    destruct (exists_ f d) as [found|]; [|discriminate].
    destruct found; cbn [negb] in E; injection E as <-; [|exact Hst].
    apply extract_files_extracted; [exact Hst|].
    intros p Hp. apply (@below_docs_dir d p); [apply Hsub; now left|].
    now apply rglob_below.
Qed.

Lemma extract_links_extracted (st : state) :
  extract_links f project_root init = Ok st -> extracted st.
Proof.
  apply extract_dirs_extracted; [auto|]. split; [reflexivity|constructor].
Qed.

(** X19.  On a file system whose walk of a directory yields paths below
    that directory: when extraction comes to an end and the file system
    answers, for every extracted link, the calls validation makes for
    it, the run ends with an exit code; the errors are then exactly the
    messages of the broken file links, in the order of the links, and
    the code is non-zero exactly when there is an error, that is, when
    some extracted link is a broken file link. *)
Theorem link_run_fails_iff_broken_link (st0 : state) :
  extract_links f project_root init = Ok st0 ->
  (forall link, In link (links st0) -> answered f link = true) ->
  exists code st,
    main f project_root = Ok (code, st)
    /\ process_status f project_root = code
    /\ links st = links st0
    /\ errors st = not_found_messages f project_root (links st)
    /\ (code <> 0 <-> errors st <> [])
    /\ (code <> 0 <->
        exists link, In link (links st) /\ broken f link = true).
Proof.
  intros Hx Ha. destruct (extract_links_extracted Hx) as [He Hl].
  destruct (validate_loop_errors Hl Ha st0) as (st & Hv & E & L).
  rewrite He in E. cbn [app] in E. rewrite <- L in E, Hl.
  exists (report st), st. unfold process_status, main, validate_links.
  rewrite Hx, Hv. cbn [exit_status].
  split; [reflexivity|]. split; [reflexivity|]. split; [assumption|].
  split; [assumption|].
  assert (Hc : report st <> 0 <-> errors st <> []).
  { unfold report. destruct (errors st); cbn; split; congruence. }
  split; [exact Hc|]. rewrite Hc, E.
  pose proof (not_found_messages_nil Hl) as N. split.
  - intros Hne.
    destruct (existsb (broken f) (links st)) eqn:X.
    + apply existsb_exists in X. destruct X as (link & Hin & B).
      now exists link.
    + exfalso. apply Hne, N. intros link Hin.
      destruct (broken f link) eqn:B; [|reflexivity].
      assert (existsb (broken f) (links st) = true)
        by (apply existsb_exists; now exists link).
      congruence.
  - intros (link & Hin & B) Hnil.
    rewrite (proj1 N Hnil link Hin) in B. discriminate.
Qed.

End WholeRun.

(** ** Runs of the link validator on a small tree *)

Section LinkRuns.
Import Links Samples Conditions.

Lemma tree_rglob_below (dirs : list string) (files : list (string * string)) :
  forall d p, In p (rglob_md (tree dirs files) d) ->
              Path.relative_to p d <> None.
Proof.
  intros d p. unfold tree. cbn [rglob_md].
  destruct (listed dirs d); [|intros []].
  intros (n & <- & Hn)%in_map_iff. apply filter_In in Hn as [_ Hu].
  unfold under in Hu.
  destruct (Path.relative_to (Path.of_string n) d); [discriminate|congruence].
Qed.

(** X18 at the links of [/repo/docs/b.md]: the external link changes
    nothing, the link to [gone.md] adds one error, the link to the
    existing [a.md] adds neither an error nor a warning. *)
Lemma link_target_cases_witness :
  shown repo b_md = Some "docs/b.md"
  /\ validate_link two_files repo init (b_md, "https://example.org") = Ok init
  /\ (exists st',
        validate_link two_files repo init (b_md, "gone.md") = Ok st'
        /\ errors st' = ["docs/b.md: File not found: gone.md"]
        /\ warnings st' = [])
  /\ (exists st',
        validate_link two_files repo init (b_md, "a.md") = Ok st'
        /\ errors st' = [] /\ warnings st' = []).
Proof.
  split; [reflexivity|]. split; [|split].
  - apply (proj1 (@link_target_cases two_files repo init b_md
                    "https://example.org" "docs/b.md" eq_refl)).
    reflexivity.
  - refine (proj2 (proj2 (proj1 (proj2
              (@link_target_cases two_files repo init b_md
                 "gone.md" "docs/b.md" eq_refl)) eq_refl eq_refl eq_refl))
              (Path.of_string "/repo/docs/gone.md") _ _);
      vm_compute; reflexivity.
  - refine (proj2 (proj2 (@link_target_cases two_files repo init b_md
                            "a.md" "docs/b.md" eq_refl)) eq_refl
              (Path.of_string "/repo/docs/a.md") _ _);
      vm_compute; reflexivity.
Defined.

(** X19 at the tree [two_files]: one broken link, hence the exit code 1. *)
Lemma link_run_fails_iff_broken_link_witness :
  exists code st,
    main two_files repo = Ok (code, st)
    /\ process_status two_files repo = code
    /\ errors st = not_found_messages two_files repo (links st)
    /\ (code <> 0 <-> errors st <> [])
    /\ (code <> 0 <->
        exists link, In link (links st) /\ broken two_files link = true).
Proof.
  destruct (extract_links two_files repo init) as [st0|x] eqn:X.
  - destruct (@link_run_fails_iff_broken_link two_files repo
                (@tree_rglob_below _ _) st0 X)
      as (code & st & M & P & _ & R).
    + intros link Hin. vm_compute in X. injection X as <-.
      vm_compute in Hin.
      repeat (destruct Hin as [<-|Hin]; [vm_compute; reflexivity|]).
      destruct Hin.
    + exists code, st. split; [exact M|]. split; [exact P|exact R].
  - vm_compute in X. discriminate X.
Defined.

Example run_two_files :
  match main two_files repo with
  | Ok (code, st) =>
      code = 1
      /\ errors st = ["docs/b.md: File not found: gone.md"]
      /\ warnings st
         = ["docs/b.md: Anchor '#intro' not found in a.md";
            "docs/b.md: Anchor '#usage' not found in a.md";
            "docs/b.md: Anchor '#c' might not exist"]
  | Raise _ => False
  end.
Proof. vm_compute. repeat split. Qed.

(** C8 on the code.  [a.md] has no heading, so extraction parses it and
    stores nothing; the first link with an anchor into it finds no key and
    parses it again, this time storing the empty set, which the second
    such link then finds. *)
Theorem headingless_target_is_parsed_twice :
  anchors_in (text ["plain text"]) = []
  /\ match main two_files repo with
     | Ok (_, st) =>
         get (anchors st) a_md = Some []
         /\ parses a_md st = 2%nat
         /\ parses b_md st = 1%nat
     | Raise _ => False
     end.
Proof. vm_compute. repeat split. Qed.

(** C3 on the code.  The only link of [/repo/docs/a.md] names a file of
    303 characters, which does not exist.  [resolve] answers, [exists]
    raises the error of the operating system for a name that is too
    long, and nothing catches it: the call for the link ends with that
    exception and records no error. *)
Theorem overlong_target_is_not_reported :
  String.length long_name = 303%nat
  /\ links_in a_md ("[spec](" ++ long_name ++ ")") = [(a_md, long_name)]
  /\ resolve long_link (Path.joinpath (Path.parent a_md) long_name)
     = Ok (Path.of_string ("/repo/docs/" ++ long_name))
  /\ exists_ long_link (Path.of_string ("/repo/docs/" ++ long_name))
     = Raise OSError
  /\ validate_link long_link repo init (a_md, long_name) = Raise OSError.
Proof. vm_compute. repeat split. Qed.

(** C4 on the code.  On the same tree extraction ends without an error
    and with that one link; validation then ends with the exception of
    [exists], so the process ends with the status 1 of an uncaught
    exception although no error was recorded. *)
Theorem overlong_target_ends_the_run :
  match extract_links long_link repo init with
  | Ok st =>
      errors st = [] /\ warnings st = []
      /\ links st = [(a_md, long_name)]
      /\ validate_links long_link repo st = Raise OSError
  | Raise _ => False
  end
  /\ main long_link repo = Raise OSError
  /\ process_status long_link repo = 1.
Proof. vm_compute. repeat split. Qed.

End LinkRuns.

(** ** The anchor cache during validation *)

Section AnchorCache.
Import Links Samples.

Variable f : fs.
Variable project_root : Path.t.

Lemma list_eqb_eq (a b : list string) : Path.list_eqb a b = true <-> a = b.
Proof.
  revert b. induction a as [|x a IH]; intros [|y b]; cbn;
    try (split; [discriminate|congruence]); [tauto|].
  rewrite andb_true_iff, String.eqb_eq, IH. split.
  - now intros [-> ->].
  - intros H. injection H as -> ->. auto.
Qed.

Lemma path_eqb_eq (p q : Path.t) : Path.eqb p q = true <-> p = q.
Proof.
  unfold Path.eqb. rewrite andb_true_iff, String.eqb_eq, list_eqb_eq.
  destruct p, q; cbn. split.
  - now intros [-> ->].
  - intros H. injection H as -> ->. auto.
Qed.

Lemma get_put_same (d : list (Path.t * list string)) k v :
  get (put d k v) k = Some v.
Proof.
  induction d as [|[k' v'] r IH]; cbn.
  - now rewrite (proj2 (path_eqb_eq k k) eq_refl).
  - destruct (Path.eqb k k') eqn:E; cbn; now rewrite E.
Qed.

Lemma get_put_other (d : list (Path.t * list string)) k k' v :
  Path.eqb k' k = false -> get (put d k v) k' = get d k'.
Proof.
  intros Hne. induction d as [|[k0 v0] r IH]; cbn.
  - now rewrite Hne.
  - destruct (Path.eqb k k0) eqn:E; cbn.
    + apply path_eqb_eq in E. subst k0. now rewrite Hne.
    + now rewrite IH.
Qed.

Lemma parses_log (p : Path.t) (ev : event) (st : state) :
  parses p (log ev st)
  = (parses p st + if is_parse_of p ev then 1 else 0)%nat.
Proof.
  unfold parses. cbn [trace log]. rewrite filter_app, length_app.
  cbn [filter]. now destruct (is_parse_of p ev).
Qed.

(** Filling the cache for [target] parses no other file, parses [target]
    only when it is not a key, and makes it a key when it parses it. *)
Lemma ensure_indexed_memo (target p : Path.t) (st : state) :
  (indexed st p = true ->
   indexed (ensure_indexed f target st) p = true
   /\ parses p (ensure_indexed f target st) = parses p st)
  /\ (indexed st p = false ->
      parses p (ensure_indexed f target st) = parses p st
      \/ (parses p (ensure_indexed f target st) = S (parses p st)
          /\ indexed (ensure_indexed f target st) p = true)).
Proof.
  unfold ensure_indexed.
  destruct (indexed st target) eqn:Ht; cbn [negb]; [tauto|].
  destruct (Path.suffix target =? ".md")%string; [|tauto].
  destruct (read_text f target) as [content|why].
  - destruct (Path.eqb p target) eqn:E.
    + apply path_eqb_eq in E. subst p. split; [congruence|]. intros _. right.
      split.
      * unfold parses. cbn [trace set_anchors log].
        rewrite !filter_app, !length_app. cbn [filter is_parse_of].
        rewrite (proj2 (path_eqb_eq target target) eq_refl). cbn. lia.
      * unfold indexed. cbn [anchors set_anchors log].
        now rewrite get_put_same.
    + assert (Hp : parses p (set_anchors target (anchors_in content)
                              (log (EvParse target) (log (EvRead target) st)))
                   = parses p st).
      { unfold parses. cbn [trace set_anchors log].
        rewrite !filter_app, !length_app. cbn [filter is_parse_of].
        rewrite E. cbn. lia. }
      assert (Hi : indexed (set_anchors target (anchors_in content)
                              (log (EvParse target) (log (EvRead target) st))) p
                   = indexed st p).
      { unfold indexed. cbn [anchors set_anchors log].
        now rewrite get_put_other by exact E. }
      rewrite Hp, Hi. tauto.
  - assert (Hp : parses p (add_warning (unreadable_message target why)
                             (log (EvRead target) st)) = parses p st).
    { unfold parses. cbn [trace add_warning log].
      rewrite filter_app, length_app. cbn. lia. }
    rewrite Hp. unfold indexed. cbn [anchors add_warning log]. tauto.
Qed.

Lemma validate_link_memo (p : Path.t) (st st' : state) link :
  validate_link f project_root st link = Ok st' ->
  (indexed st p = true ->
   indexed st' p = true /\ parses p st' = parses p st)
  /\ (indexed st p = false ->
      parses p st' = parses p st
      \/ (parses p st' = S (parses p st) /\ indexed st' p = true)).
Proof.
  destruct link as [src url]. unfold validate_link.
  assert (Same : forall m, Ok (add_warning m st) = Ok st' \/ Ok st = Ok st' ->
            indexed st' p = indexed st p /\ parses p st' = parses p st).
  { intros m [H|H]; injection H as <-; now split. }
  assert (Fin : forall m, Ok (add_warning m st) = Ok st' \/ Ok st = Ok st' ->
            (indexed st p = true ->
             indexed st' p = true /\ parses p st' = parses p st)
            /\ (indexed st p = false ->
                parses p st' = parses p st
                \/ (parses p st' = S (parses p st) /\ indexed st' p = true))).
  { intros m H. destruct (Same m H) as [-> ->]. tauto. }
  destruct (Str.startswith "http" url); [intros H; apply (Fin ""); auto|].
  destruct (Str.startswith "#" url).
  { destruct (negb _); [|intros H; apply (Fin ""); auto].
    destruct (shown project_root src); [|discriminate].
    intros H. eapply Fin. left. exact H. }
  destruct (split_url url) as [file_path anchor].
  destruct (Str.truthy file_path); [|intros H; apply (Fin ""); auto].
  unfold validate_target.
  set (joined := Path.joinpath (Path.parent src) file_path).
  destruct (resolve f joined) as [target|]; [|discriminate].
  destruct (exists_ f target) as [found|]; [|discriminate].
  unfold checked_target.
  set (st0 := log (EvExists target) (log (EvResolve joined) st)).
  assert (H0 : indexed st0 p = indexed st p /\ parses p st0 = parses p st).
  { split; [reflexivity|]. unfold st0. rewrite !parses_log. cbn. lia. }
  destruct H0 as [I0 P0].
  destruct (negb found).
  { destruct (shown project_root src); [|discriminate].
    intros H. injection H as <-. rewrite <- I0, <- P0.
    change (indexed (add_error _ st0) p) with (indexed st0 p).
    change (parses p (add_error _ st0)) with (parses p st0). tauto. }
  assert (K : forall s, Ok s = Ok st' -> indexed s p = indexed st0 p ->
            parses p s = parses p st0 ->
            (indexed st p = true ->
             indexed st' p = true /\ parses p st' = parses p st)
            /\ (indexed st p = false ->
                parses p st' = parses p st
                \/ (parses p st' = S (parses p st) /\ indexed st' p = true))).
  { intros s H Hi Hp. injection H as <-. rewrite Hi, Hp, I0, P0. tauto. }
  destruct anchor as [a|]; [|intros H; now apply (K st0)].
  destruct (Str.truthy a); [|intros H; now apply (K st0)].
  pose proof (ensure_indexed_memo target p st0) as M.
  rewrite I0, P0 in M.
  set (st1 := ensure_indexed f target st0) in *.
  assert (L : forall s, Ok s = Ok st' -> indexed s p = indexed st1 p ->
            parses p s = parses p st1 ->
            (indexed st p = true ->
             indexed st' p = true /\ parses p st' = parses p st)
            /\ (indexed st p = false ->
                parses p st' = parses p st
                \/ (parses p st' = S (parses p st) /\ indexed st' p = true))).
  { intros s H Hi Hp. injection H as <-. rewrite Hi, Hp. exact M. }
  destruct (negb (mem a _)); [|intros H; now apply (L st1)].
  destruct (shown project_root src); [|discriminate].
  intros H. now apply (L _ H).
Qed.

(** X16.  During [validate_links] the content of a file is parsed at most
    once, and not at all when the file is a key of the cache already, in
    which case it stays a key. *)
Lemma validation_parses_at_most_once (p : Path.t) :
  forall l st st',
    validate_loop f project_root l st = Ok st' ->
    (indexed st p = true -> indexed st' p = true /\ parses p st' = parses p st)
    /\ (parses p st' <= S (parses p st))%nat.
Proof.
  induction l as [|link rest IH]; intros st st'; cbn [validate_loop].
  - intros H. injection H as <-. split; auto.
  - destruct (validate_link f project_root st link) as [st1|x] eqn:Hv;
      [|discriminate].
    intros Hr. destruct (validate_link_memo p _ _ Hv) as [A B].
    destruct (IH _ _ Hr) as [C D].
    destruct (indexed st p) eqn:I.
    + destruct (A eq_refl) as [I1 P1]. destruct (C I1) as [I2 P2].
      split; [intros _; split; congruence|]. rewrite P2, P1. lia.
    + split; [discriminate|].
      destruct (B eq_refl) as [P1|[P1 I1]]; [rewrite <- P1; exact D|].
      destruct (C I1) as [_ P2]. rewrite P2, P1. lia.
Qed.

End AnchorCache.

(** * Further properties of the metadata hook *)

Section HookFiles.
Import Metadata Conditions.

Variable e : env.

Lemma scan_missing (fields : list (string * Re.pattern)) (content : string) :
  fst (scan fields content) = map fst (filter (unmatched content) fields).
Proof.
  induction fields as [|[name pat] rest IH]; [reflexivity|].
  cbn [scan filter]. unfold unmatched at 1. cbn [snd].
  destruct (scan rest content) as [missing found]. cbn [fst] in IH.
  destruct (Re.search pat content); cbn [fst map]; now rewrite IH.
Qed.

Lemma complete_has_status (content : string) :
  missing_fields content = [] ->
  exists status_value,
    lookup "Status" (found_fields content) = Some status_value.
Proof.
  unfold missing_fields, found_fields, REQUIRED_FIELDS. cbn [scan].
  destruct (Re.search _ content); destruct (Re.search _ content);
    destruct (Re.search _ content); destruct (Re.search _ content);
    cbn; try discriminate; intros _; eexists; reflexivity.
Qed.

(** X5.  A readable file that lacks fields, at a path that can be shown
    relative to the working directory: [validate_file] returns [False]
    and appends one error, whose text lists every required field whose
    pattern finds nothing, in the order of [REQUIRED_FIELDS], separated
    by a comma and a space; the warnings stay as they are. *)
Theorem validate_file_names_missing
    (filepath : Path.t) (st : state) (content rel : string) :
  read_text e filepath = inl content ->
  filter (unmatched content) REQUIRED_FIELDS <> [] ->
  shown e filepath = Some rel ->
  validate_file e filepath st
  = (Ok false,
     {| errors :=
          errors st
          ++ [rel ++ ": Missing metadata: "
                  ++ Str.join ", "
                       (map fst (filter (unmatched content) REQUIRED_FIELDS))];
        warnings := warnings st |}).
Proof.
  intros Hr Hm Hs.
  assert (E : missing_fields content
              = map fst (filter (unmatched content) REQUIRED_FIELDS))
    by apply scan_missing.
  rewrite (validate_file_missing e _ st Hr), Hs, E; [reflexivity|].
  rewrite E. destruct (filter _ _); [congruence|discriminate].
Qed.

(** X4.  A readable file with all four fields, at a path that can be
    shown relative to the working directory: [validate_file] returns
    [True], leaves the errors alone and appends, in this order, the
    staleness warning when the date is a calendar date more than 180 days
    back, and the status warning when the matched status text holds no
    word of the vocabulary. *)
Theorem validate_file_complete
    (filepath : Path.t) (st : state) (content rel : string) :
  read_text e filepath = inl content ->
  missing_fields content = [] ->
  shown e filepath = Some rel ->
  exists status_value,
    lookup "Status" (found_fields content) = Some status_value
    /\ validate_file e filepath st
       = (Ok true,
          {| errors := errors st;
             warnings :=
               (warnings st
                ++ match days_old_of e (found_fields content) with
                   | Some days_old =>
                       if 180 <? days_old
                       then [stale_message rel days_old] else []
                   | None => []
                   end
                ++ if existsb (fun s => Str.contains s status_value)
                        valid_statuses
                   then [] else [status_message rel status_value])%list |}).
Proof.
  intros Hr Hm Hs. destruct (complete_has_status _ Hm) as [v Hv].
  exists v. split; [assumption|].
  unfold validate_file. rewrite Hr, scan_fields, Hm.
  unfold check_status, check_recent. rewrite Hv, Hs. destruct st as [es ws].
  destruct (days_old_of e (found_fields content)) as [d|];
    [destruct (180 <? d)|];
    destruct (existsb _ valid_statuses); cbn [negb];
    unfold add_warning; cbn [errors warnings app];
    rewrite ?app_nil_r, <- ?app_assoc; reflexivity.
Qed.

Lemma validate_file_passes (p : Path.t) (st : state) :
  passes e p = true -> validate_file e p st = (Ok true, st).
Proof.
  unfold passes, validate_file. destruct (read_text e p); [|discriminate].
  rewrite scan_fields. destruct (missing_fields s); [|discriminate].
  intros [Hd Hk]%andb_prop.
  unfold check_recent, check_status.
  unfold recent_enough in Hd. unfold known_status in Hk.
  destruct (days_old_of e (found_fields s)) as [d|].
  - apply Z.leb_le in Hd. destruct (Z.ltb_spec 180 d); [lia|].
    destruct (lookup "Status" (found_fields s)); [|reflexivity].
    now rewrite Hk.
  - destruct (lookup "Status" (found_fields s)); [|reflexivity].
    now rewrite Hk.
Qed.

(** X3.  When every staged file in scope is readable, has all four
    fields, a date that is no reason for a warning and a status of the
    vocabulary, [run] returns 0 and records nothing, whether git named
    the files relative to the repository root or not. *)
Theorem run_on_passing_files :
  (forall p, In p (filter should_check_file (get_staged_files e)) ->
             passes e p = true) ->
  run e = (Ok 0, init).
Proof.
  intros H. unfold run. destruct (get_staged_files e) as [|p0 l0]; [reflexivity|].
  set (docs := filter should_check_file (p0 :: l0)) in *.
  assert (V : forall l st, (forall p, In p l -> passes e p = true) ->
                           validate_all e l st = (Ok tt, st)).
  { induction l as [|p l IH]; intros st Hl; [reflexivity|].
    cbn [validate_all]. rewrite validate_file_passes by (apply Hl; now left).
    apply IH. intros q Hq. apply Hl. now right. }
  destruct docs; [reflexivity|]. now rewrite V.
Qed.

(** X2.  When at least one staged file is in scope and none of those in
    scope can be read, [run] returns 1 with one error per file, in the
    order git printed them, each naming the path and the text of the
    exception; nothing is raised and there is no warning. *)
Theorem run_on_unreadable_files :
  filter should_check_file (get_staged_files e) <> [] ->
  (forall p, In p (filter should_check_file (get_staged_files e)) ->
             exists why, read_text e p = inr why) ->
  run e
  = (Ok 1,
     {| errors :=
          map (fun p => "Could not read " ++ Path.to_string p ++ ": "
                          ++ read_failure e p)
            (filter should_check_file (get_staged_files e));
        warnings := [] |}).
Proof.
  intros Hne H. unfold run.
  destruct (get_staged_files e) as [|p0 l0]; [now cbn in Hne|].
  set (docs := filter should_check_file (p0 :: l0)) in *.
  assert (V : forall l st,
             (forall p, In p l -> exists why, read_text e p = inr why) ->
             validate_all e l st
             = (Ok tt,
                {| errors :=
                     errors st
                     ++ map (fun p => "Could not read " ++ Path.to_string p
                                        ++ ": " ++ read_failure e p) l;
                   warnings := warnings st |})).
  { induction l as [|p l IH]; intros st Hl.
    - cbn. rewrite app_nil_r. now destruct st.
    - cbn [validate_all]. unfold validate_file.
      destruct (Hl p) as [why Hw]; [now left|]. rewrite Hw.
      rewrite IH by (intros q Hq; apply Hl; now right).
      unfold add_error, unreadable_message, read_failure at 2.
      cbn [errors warnings map]. rewrite Hw, <- app_assoc. reflexivity. }
  destruct docs as [|d ds] eqn:Hd; [congruence|].
  rewrite V by assumption. cbn [errors init app]. reflexivity.
Qed.

End HookFiles.

Section HookOutcomes.
Import Metadata Conditions.

Variable e : env.

(** X6.  What a call of [validate_file] leaves behind, by its outcome:
    after [True] the errors are as before and at most two warnings were
    appended; after [False] exactly one error was appended and nothing
    else changed; when it raises, nothing at all was recorded. *)
Theorem validate_file_outcomes (filepath : Path.t) (st : state) :
  match fst (validate_file e filepath st) with
  | Ok true =>
      errors (snd (validate_file e filepath st)) = errors st
      /\ exists ws,
           warnings (snd (validate_file e filepath st))
           = (warnings st ++ ws)%list
           /\ (List.length ws <= 2)%nat
  | Ok false =>
      exists m, snd (validate_file e filepath st) = add_error m st
  | Raise _ => snd (validate_file e filepath st) = st
  end.
Proof.
  unfold validate_file. destruct (read_text e filepath) as [content|why].
  2:{ cbn. now eexists. }
  destruct (scan REQUIRED_FIELDS content) as [missing found].
  destruct missing.
  2:{ destruct (shown e filepath); cbn; [now eexists|reflexivity]. }
  unfold check_status, check_recent.
  destruct (shown e filepath) as [rel|].
  - destruct (days_old_of e found) as [d|]; [destruct (180 <? d)|];
      (destruct (lookup "Status" found) as [v|];
       [destruct (negb (existsb _ valid_statuses))|]);
      cbn [fst snd errors warnings add_warning]; (split; [reflexivity|]).
    all: try (exists []; rewrite app_nil_r; split; [reflexivity|cbn; lia]).
    all: try (eexists [_]; split; [reflexivity|cbn; lia]).
    eexists [_; _]. rewrite <- app_assoc. split; [reflexivity|cbn; lia].
  - assert (R : match days_old_of e found with
                | Some days_old => if 180 <? days_old then st else st
                | None => st
                end = st).
    { destruct (days_old_of e found) as [d|]; [now destruct (180 <? d)|reflexivity]. }
    rewrite R.
    destruct (lookup "Status" found) as [v|];
      [destruct (negb (existsb _ valid_statuses))|];
      cbn [fst snd]; try reflexivity;
      (split; [reflexivity|]); exists []; rewrite app_nil_r;
      (split; [reflexivity|cbn; lia]).
Qed.

End HookOutcomes.

Section HookWitnesses.
Import Metadata Conditions Samples.

(** X1 at a run that found a missing owner. *)
Lemma run_returns_by_errors_witness :
  run (hook "/repo/docs/guide.md" no_owner)
  = (Ok 1, {| errors := ["docs/guide.md: Missing metadata: Owner"];
              warnings := [] |})
  /\ ((1 = 1
       /\ errors {| errors := ["docs/guide.md: Missing metadata: Owner"];
                    warnings := [] |} <> [])
      \/ (1 = 0
          /\ errors {| errors := ["docs/guide.md: Missing metadata: Owner"];
                       warnings := [] |} = [])).
Proof.
  split; [vm_compute; reflexivity|].
  apply (@run_returns_by_errors (hook "/repo/docs/guide.md" no_owner)).
  vm_compute; reflexivity.
Defined.

(** X2 at two staged files of which none exists any more. *)
Lemma run_on_unreadable_files_witness :
  run {| cwd := repo; read_text := Links.content_of [];
         today := a_day;
         git_diff := Some (text ["docs/a.md"; "specs/b.md"; "src/c.py"]) |}
  = (Ok 1,
     {| errors :=
          ["Could not read docs/a.md: [Errno 2] No such file or directory";
           "Could not read specs/b.md: [Errno 2] No such file or directory"];
        warnings := [] |}).
Proof.
  apply (@run_on_unreadable_files
           {| cwd := repo; read_text := Links.content_of [];
              today := a_day;
              git_diff := Some (text ["docs/a.md"; "specs/b.md"; "src/c.py"]) |}).
  - vm_compute; discriminate.
  - intros p _. now eexists.
Defined.

(** X3 at two complete files named relative to the repository root. *)
Lemma run_on_passing_files_witness :
  run (hook_on [("docs/a.md", complete); ("planning/b.md", complete)])
  = (Ok 0, init).
Proof.
  apply (@run_on_passing_files
           (hook_on [("docs/a.md", complete); ("planning/b.md", complete)])).
  intros p Hp. vm_compute in Hp.
  destruct Hp as [<-|[<-|[]]]; vm_compute; reflexivity.
Defined.

(** X4 at a complete file that is 2499 days old and has the status
    Draft. *)
Lemma validate_file_complete_witness :
  exists status_value,
    lookup "Status" (found_fields (text ["**Last Updated**: 2020-01-01";
                                         "**Status**: Draft";
                                         "**Owner**: me";
                                         "**Document Type**: Note"]))
    = Some status_value
    /\ validate_file
         (hook "/repo/docs/guide.md"
            (text ["**Last Updated**: 2020-01-01"; "**Status**: Draft";
                   "**Owner**: me"; "**Document Type**: Note"]))
         (Path.of_string "/repo/docs/guide.md") init
       = (Ok true,
          {| errors := [];
             warnings :=
               ([]
                ++ match
                     days_old_of
                       (hook "/repo/docs/guide.md"
                          (text ["**Last Updated**: 2020-01-01";
                                 "**Status**: Draft"; "**Owner**: me";
                                 "**Document Type**: Note"]))
                       (found_fields
                          (text ["**Last Updated**: 2020-01-01";
                                 "**Status**: Draft"; "**Owner**: me";
                                 "**Document Type**: Note"]))
                   with
                   | Some days_old =>
                       if 180 <? days_old
                       then [stale_message "docs/guide.md" days_old] else []
                   | None => []
                   end
                ++ if existsb (fun s => Str.contains s status_value)
                        valid_statuses
                   then [] else [status_message "docs/guide.md" status_value])%list |}).
Proof.
  apply (@validate_file_complete
           (hook "/repo/docs/guide.md"
              (text ["**Last Updated**: 2020-01-01"; "**Status**: Draft";
                     "**Owner**: me"; "**Document Type**: Note"]))
           (Path.of_string "/repo/docs/guide.md") init _ "docs/guide.md");
    vm_compute; reflexivity.
Defined.

(** X5 at a file that has a status only. *)
Lemma validate_file_names_missing_witness :
  validate_file (hook "/repo/docs/guide.md" (text ["**Status**: Planned"]))
    (Path.of_string "/repo/docs/guide.md") init
  = (Ok false,
     {| errors :=
          ["docs/guide.md: Missing metadata: Last Updated, Owner, Document Type"];
        warnings := [] |}).
Proof.
  apply (@validate_file_names_missing
           (hook "/repo/docs/guide.md" (text ["**Status**: Planned"]))
           (Path.of_string "/repo/docs/guide.md") init
           (text ["**Status**: Planned"]) "docs/guide.md").
  - vm_compute; reflexivity.
  - vm_compute; discriminate.
  - vm_compute; reflexivity.
Defined.

End HookWitnesses.

(** * Further properties of the scope filter and of the staged files *)

Section Substrings.

Lemma prefix_split (p s : string) :
  String.prefix p s = true -> exists b, s = p ++ b.
Proof.
  revert s. induction p as [|c p IH]; intros s; [now exists s|].
  destruct s as [|d s]; cbn; [discriminate|].
  destruct (ascii_dec c d) as [<-|]; [|discriminate].
  intros H. destruct (IH _ H) as [b ->]. now exists b.
Qed.

Lemma contains_split (p s : string) :
  Str.contains p s = true -> exists a b, s = a ++ p ++ b.
Proof.
  induction s as [|c s IH]; cbn [Str.contains].
  - intros H. apply prefix_split in H as [b ->]. now exists EmptyString, b.
  - intros [H|H]%orb_prop.
    + apply prefix_split in H as [b ->]. now exists EmptyString, b.
    + destruct (IH H) as (a & b & ->). now exists (String c a), b.
Qed.

Lemma contains_inside (p a b : string) : Str.contains p (a ++ p ++ b) = true.
Proof. apply contains_app_l, contains_prefix, prefix_refl_app. Qed.

Lemma contains_within (p s a b : string) :
  Str.contains p s = true -> Str.contains p (a ++ s ++ b) = true.
Proof.
  intros (x & y & ->)%contains_split.
  replace (a ++ (x ++ p ++ y) ++ b) with ((a ++ x) ++ p ++ (y ++ b)).
  - apply contains_inside.
  - now rewrite !str_app_assoc.
Qed.

Lemma join_holds (sep x : string) (l : list string) :
  In x l -> exists a b, Str.join sep l = a ++ x ++ b.
Proof.
  induction l as [|y r IH]; [intros []|].
  intros [->|Hin].
  - destruct r as [|z r'].
    + exists EmptyString, EmptyString. cbn.
      clear. induction x; cbn; congruence.
    + exists EmptyString, (sep ++ Str.join sep (z :: r')). reflexivity.
  - destruct (IH Hin) as (a & b & E). destruct r as [|z r']; [destruct Hin|].
    exists (y ++ sep ++ a), b.
    change (Str.join sep (y :: z :: r'))
      with (y ++ sep ++ Str.join sep (z :: r')).
    now rewrite E, !str_app_assoc.
Qed.

Lemma split_has_no_separator (c : ascii) (s x : string) :
  In x (Str.split c s) -> Str.has_char c x = false.
Proof.
  revert x. induction s as [|d s IH]; intros x.
  - intros [<-|[]]. reflexivity.
  - cbn [Str.split]. destruct (Ascii.eqb d c) eqn:E.
    + intros [<-|H]; [reflexivity|now apply IH].
    + destruct (Str.split c s) as [|h t] eqn:S.
      * intros [<-|[]]. cbn. now rewrite E.
      * intros [<-|H].
        -- cbn. rewrite E. apply IH. now left.
        -- apply IH. now right.
Qed.

End Substrings.

Section ScopeMore.
Import Metadata.

(** X7.  A path with a segment that contains one of the exclusion
    patterns is never in scope.  No file below a [.github] directory is
    ever checked, for [.git] occurs in that segment. *)
Theorem excluded_segment_is_out_of_scope
    (p : Path.t) (seg pat : string) :
  In seg (Path.segs p) ->
  In pat EXCLUDE_PATTERNS ->
  Str.contains pat seg = true ->
  should_check_file p = false.
Proof.
  intros Hs Hp Hc.
  assert (T : Str.contains pat (Path.to_string p) = true).
  { destruct (join_holds "/" _ _ Hs) as (a & b & E).
    unfold Path.to_string.
    assert (R : match Path.root p, Path.segs p with
                | EmptyString, [] => "."
                | r, l => r ++ Str.join "/" l
                end = Path.root p ++ Str.join "/" (Path.segs p)).
    { destruct (Path.root p); [|reflexivity].
      destruct (Path.segs p); [destruct Hs|reflexivity]. }
    rewrite R, E, <- str_app_assoc. now apply contains_within. }
  unfold should_check_file.
  destruct (negb (Path.suffix p =? ".md")%string); [reflexivity|].
  destruct (negb (existsb _ (Path.parts p))); [reflexivity|].
  assert (X : existsb (fun pat => Str.contains pat (Path.to_string p))
                EXCLUDE_PATTERNS = true)
    by (apply existsb_exists; now exists pat).
  now rewrite X.
Qed.

Lemma of_string_root (s : string) :
  Path.root (Path.of_string s) = EmptyString
  \/ Path.root (Path.of_string s) = "/"
  \/ Path.root (Path.of_string s) = "//".
Proof.
  unfold Path.of_string, Path.splitroot. destruct s as [|c s]; [now left|].
  destruct (Ascii.eqb c Path.slash); [|now left].
  destruct (Nat.eqb _ 2); cbn; auto.
Qed.

Lemma of_string_segs_no_slash (s seg : string) :
  In seg (Path.segs (Path.of_string s)) -> Str.has_char Path.slash seg = false.
Proof.
  unfold Path.of_string. destruct (Path.splitroot s) as [r rel].
  cbn [Path.segs]. intros [H _]%filter_In.
  now apply split_has_no_separator in H.
Qed.

(** X8.  For a path made from a string, the directory test of
    [should_check_file] succeeds exactly when one of the segments is
    [specs], [docs] or [planning]: the entry [.github/docs] of
    [DOCS_DIRS] never matches, because no part of a path holds a
    slash. *)
Theorem docs_dirs_entry_with_slash_is_dead (s : string) :
  existsb (fun part => mem part DOCS_DIRS) (Path.parts (Path.of_string s))
  = existsb (fun seg => mem seg ["specs"; "docs"; "planning"])
      (Path.segs (Path.of_string s)).
Proof.
  assert (Seg : forall l,
             (forall seg, In seg l -> Str.has_char Path.slash seg = false) ->
             existsb (fun part => mem part DOCS_DIRS) l
             = existsb (fun seg => mem seg ["specs"; "docs"; "planning"]) l).
  { induction l as [|x l IH]; intros H; [reflexivity|].
    cbn [existsb]. rewrite IH by (intros; apply H; now right).
    f_equal. unfold mem, DOCS_DIRS. cbn [existsb].
    destruct (x =? ".github/docs")%string eqn:E; [|now rewrite !orb_false_r].
    apply String.eqb_eq in E. subst x.
    specialize (H _ (or_introl eq_refl)). discriminate H. }
  unfold Path.parts.
  pose proof (of_string_segs_no_slash s) as N.
  destruct (of_string_root s) as [R|[R|R]]; rewrite R; cbn [Str.truthy];
    [|cbn [existsb]; replace (mem _ DOCS_DIRS) with false by reflexivity
     |cbn [existsb]; replace (mem _ DOCS_DIRS) with false by reflexivity];
    cbn [orb]; now apply Seg.
Qed.

(** X9.  The staged files are exactly the non-empty lines of what git
    printed, white space stripped from both ends of the output, each
    turned into a path: every staged file comes from such a line, which
    holds no line break, and every such line gives a staged file.  There
    is none at all when git ended with [CalledProcessError] or printed
    white space only, in which case [run] returns 0 and records
    nothing. *)
Theorem staged_files_are_lines (e : env) :
  (forall p, In p (get_staged_files e) ->
     exists stdout line,
       git_diff e = Some stdout
       /\ In line (Str.split Chars.newline (Str.strip stdout))
       /\ line <> EmptyString
       /\ Str.has_char Chars.newline line = false
       /\ p = Path.of_string line)
  /\ (forall stdout line,
        git_diff e = Some stdout ->
        In line (Str.split Chars.newline (Str.strip stdout)) ->
        line <> EmptyString ->
        In (Path.of_string line) (get_staged_files e))
  /\ (git_diff e = None \/
      (exists stdout, git_diff e = Some stdout
                      /\ Str.strip stdout = EmptyString) ->
      get_staged_files e = [] /\ run e = (Ok 0, init)).
Proof.
  split; [|split].
  - unfold get_staged_files. destruct (git_diff e) as [stdout|]; [|intros ? []].
    intros p (line & <- & [Hin Ht]%filter_In)%in_map_iff.
    exists stdout, line. split; [reflexivity|]. split; [exact Hin|].
    split; [|split; [|reflexivity]].
    + intros ->. discriminate Ht.
    + now apply split_has_no_separator in Hin.
  - intros stdout line Hg Hin Hne. unfold get_staged_files. rewrite Hg.
    apply in_map, filter_In. split; [exact Hin|].
    destruct line; [congruence|reflexivity].
  - assert (G : git_diff e = None \/
                (exists stdout, git_diff e = Some stdout
                                /\ Str.strip stdout = EmptyString) ->
                get_staged_files e = []).
    { unfold get_staged_files. intros [->|(stdout & -> & ->)]; reflexivity. }
    intros H. split; [now apply G|]. unfold run. now rewrite (G H).
Qed.

(** X7 at a policy file below [.github/docs]. *)
Lemma excluded_segment_is_out_of_scope_witness :
  existsb (fun part => mem part DOCS_DIRS)
    (Path.parts (Path.of_string ".github/docs/policy.md")) = true
  /\ should_check_file (Path.of_string ".github/docs/policy.md") = false.
Proof.
  split; [reflexivity|].
  apply (@excluded_segment_is_out_of_scope
           (Path.of_string ".github/docs/policy.md") ".github" ".git").
  - vm_compute. now left.
  - vm_compute. auto.
  - reflexivity.
Defined.

End ScopeMore.

(** * Further properties of the link validator *)

Section Extraction.
Import Links Conditions Scope.

Variable f : fs.
Variable project_root : Path.t.

Lemma get_put_cases (d : list (Path.t * list string)) k v k' v' :
  get (put d k v) k' = Some v' -> v' = v \/ get d k' = Some v'.
Proof.
  destruct (Path.eqb k' k) eqn:E.
  - apply path_eqb_eq in E. subst k'. rewrite get_put_same.
    intros H. injection H as <-. now left.
  - rewrite get_put_other by exact E. now right.
Qed.

Lemma set_add_Forall (P : string -> Prop) (x : string) (s : list string) :
  P x -> Forall P s -> Forall P (set_add x s).
Proof.
  intros Hx Hs. unfold set_add. destruct (mem x s); [assumption|].
  apply Forall_app. split; [assumption|now constructor].
Qed.

Lemma anchors_in_derived (content : string) :
  Forall (fun a => Str.all_chars settled a = true) (anchors_in content).
Proof.
  unfold anchors_in. generalize (Re.finditer heading_pattern content).
  assert (G : forall l acc,
             Forall (fun a => Str.all_chars settled a = true) acc ->
             Forall (fun a => Str.all_chars settled a = true)
               (fold_left
                  (fun acc heading =>
                     set_add (derive_anchor (Re.grp1 heading)) acc) l acc)).
  { induction l as [|h l IH]; intros acc Ha; [assumption|].
    cbn [fold_left]. apply IH, set_add_Forall; [|assumption].
    apply derive_anchor_all_settled. }
  intros l. apply G. constructor.
Qed.

Local Abbreviation harvested := (Conditions.harvested f project_root).

Lemma extract_file_harvested (st : state) (d md_file : Path.t) :
  In d (docs_dirs project_root) -> exists_ f d = Ok true ->
  In md_file (rglob_md f d) ->
  harvested st -> harvested (extract_file f st md_file).
Proof.
  intros Hd He Hin (E & N & D & L & W). unfold extract_file.
  destruct (read_text f md_file) as [content|why] eqn:R.
  - assert (C : cache_nonempty
                  (if nonempty (anchors_in content)
                   then set_anchors md_file (anchors_in content)
                          (log (EvParse md_file) (log (EvRead md_file) st))
                   else log (EvParse md_file) (log (EvRead md_file) st))
                /\ cache_derived
                     (if nonempty (anchors_in content)
                      then set_anchors md_file (anchors_in content)
                             (log (EvParse md_file) (log (EvRead md_file) st))
                      else log (EvParse md_file) (log (EvRead md_file) st))).
    { destruct (anchors_in content) as [|a0 r0] eqn:A; cbn [nonempty].
      - split; [exact N|exact D].
      - split; intros k v H; cbn [anchors set_anchors log] in H;
          apply get_put_cases in H as [->|H].
        + discriminate.
        + now apply (N k).
        + rewrite <- A. apply anchors_in_derived.
        + now apply (D k). }
    destruct C as [C1 C2].
    destruct (nonempty (anchors_in content));
      (split; [exact E|]); (split; [exact C1|]); (split; [exact C2|]);
      (split; [|exact W]); intros src url H; cbn [links add_links set_anchors log] in H;
      apply in_app_or in H as [H|H]; auto;
      unfold links_in in H; apply in_map_iff in H as (m & Hm & Hi);
      injection Hm as <- <-; exists d, content;
      repeat (split; [assumption|]); apply in_map_iff; now exists m.
  - split; [exact E|]. split; [exact N|]. split; [exact D|]. split; [exact L|].
    intros w H. cbn [warnings add_warning log] in H.
    apply in_app_or in H as [H|[<-|[]]]; [now apply W|].
    exists md_file, why. now split.
Qed.

Lemma extract_dir_harvested (st st' : state) (d : Path.t) :
  In d (docs_dirs project_root) ->
  extract_dir f st d = Ok st' ->
  harvested st -> harvested st'.
Proof.
  intros Hd E H. unfold extract_dir in E.
  destruct (exists_ f d) as [found|] eqn:He; [|discriminate].
  destruct found; cbn [negb] in E; injection E as <-; [|exact H].
  assert (G : forall l s, (forall p, In p l -> In p (rglob_md f d)) ->
                          harvested s ->
                          harvested (fold_left (extract_file f) l s)).
  { induction l as [|p l IH]; intros s Hl Hs; [assumption|].
    cbn [fold_left]. apply IH; [intros; apply Hl; now right|].
    apply (@extract_file_harvested s d p Hd He); [apply Hl; now left|assumption]. }
  apply G; [auto|exact H].
Qed.

Lemma extract_links_harvested (st : state) :
  extract_links f project_root init = Ok st -> harvested st.
Proof.
  unfold extract_links.
  assert (G : forall l s s',
             (forall d, In d l -> In d (docs_dirs project_root)) ->
             harvested s -> extract_dirs f l s = Ok s' -> harvested s').
  { induction l as [|d l IH]; intros s s' Hl Hs; cbn [extract_dirs].
    - intros H. now injection H as <-.
    - destruct (extract_dir f s d) as [s1|] eqn:E; [|discriminate].
      apply IH; [intros; apply Hl; now right|].
      apply (@extract_dir_harvested s s1 d); [apply Hl; now left|exact E|exact Hs]. }
  apply G; [auto|].
  split; [reflexivity|]. split; [intros k v H; discriminate H|].
  split; [intros k v H; discriminate H|].
  split; [intros ? ? []|intros ? []].
Qed.

(** X10.  When [extract_links] comes to an end on a fresh validator: no
    error has been recorded; every cached set of anchors has an anchor in
    it, and every anchor in it is lower case and made of word characters
    and hyphens; every link was matched by the link pattern in the
    content of a file that the walk of an existing documentation
    directory yielded; and every warning reports a file that could not
    be read. *)
Theorem extract_links_invariants (st : state) :
  extract_links f project_root init = Ok st ->
  errors st = []
  /\ cache_nonempty st
  /\ cache_derived st
  /\ (forall src url,
        In (src, url) (links st) ->
        exists d content,
          In d (docs_dirs project_root) /\ exists_ f d = Ok true
          /\ In src (rglob_md f d)
          /\ read_text f src = inl content
          /\ In url (map Re.grp1 (Re.finditer md_pattern content)))
  /\ (forall w, In w (warnings st) ->
        exists p why,
          read_text f p = inr why
          /\ w = "Could not read " ++ Path.to_string p ++ ": " ++ why).
Proof. exact (@extract_links_harvested st). Qed.

End Extraction.

Section Validation.
Import Links Conditions Scope.

Variable f : fs.
Variable project_root : Path.t.

Lemma extends_refl (st : state) : extends st st.
Proof.
  repeat split; auto; exists []; now rewrite app_nil_r.
Qed.

Lemma extends_trans (a b c : state) : extends a b -> extends b c -> extends a c.
Proof.
  intros (L1 & [e1 E1] & [w1 W1] & G1 & D1) (L2 & [e2 E2] & [w2 W2] & G2 & D2).
  split; [congruence|]. split; [exists (e1 ++ e2)%list; now rewrite E2, E1, app_assoc|].
  split; [exists (w1 ++ w2)%list; now rewrite W2, W1, app_assoc|].
  split; auto.
Qed.

Lemma extends_warning (m : string) (st : state) : extends st (add_warning m st).
Proof.
  repeat split; auto; [exists []; cbn; now rewrite app_nil_r|now exists [m]].
Qed.

Lemma extends_error (m : string) (st : state) : extends st (add_error m st).
Proof.
  repeat split; auto; [now exists [m]|exists []; cbn; now rewrite app_nil_r].
Qed.

Lemma extends_log (ev : event) (st : state) : extends st (log ev st).
Proof.
  repeat split; auto; exists []; cbn; now rewrite app_nil_r.
Qed.

Lemma ensure_indexed_extends (target : Path.t) (st : state) :
  extends st (ensure_indexed f target st).
Proof.
  unfold ensure_indexed. destruct (indexed st target) eqn:I; cbn [negb];
    [apply extends_refl|].
  destruct (Path.suffix target =? ".md")%string; [|apply extends_refl].
  destruct (read_text f target) as [content|why].
  - split; [reflexivity|]. split; [exists []; cbn; now rewrite app_nil_r|].
    split; [exists []; cbn; now rewrite app_nil_r|].
    cbn [anchors set_anchors log]. split.
    + intros k v H. rewrite get_put_other; [assumption|].
      destruct (Path.eqb k target) eqn:E; [|reflexivity].
      apply path_eqb_eq in E. subst k. unfold indexed in I.
      now rewrite H in I.
    + intros D k v H. cbn [anchors set_anchors log] in H.
      apply get_put_cases in H as [->|H]; [apply anchors_in_derived|].
      now apply (D k).
  - eapply extends_trans; [apply extends_log|apply extends_warning].
Qed.

Lemma validate_link_extends (st st' : state) (link : Path.t * string) :
  validate_link f project_root st link = Ok st' -> extends st st'.
Proof.
  destruct link as [src url]. unfold validate_link.
  destruct (Str.startswith "http" url);
    [intros H; injection H as <-; apply extends_refl|].
  destruct (Str.startswith "#" url).
  { destruct (negb _); [|intros H; injection H as <-; apply extends_refl].
    destruct (shown project_root src); [|discriminate].
    intros H; injection H as <-. apply extends_warning. }
  destruct (split_url url) as [file_path anchor].
  destruct (Str.truthy file_path);
    [|intros H; injection H as <-; apply extends_refl].
  unfold validate_target.
  set (joined := Path.joinpath (Path.parent src) file_path).
  destruct (resolve f joined) as [target|]; [|discriminate].
  destruct (exists_ f target) as [found|]; [|discriminate].
  unfold checked_target.
  assert (E0 : extends st (log (EvExists target) (log (EvResolve joined) st)))
    by (eapply extends_trans; apply extends_log).
  destruct (negb found).
  { destruct (shown project_root src); [|discriminate].
    intros H; injection H as <-.
    eapply extends_trans; [exact E0|apply extends_error]. }
  destruct anchor as [a|]; [|intros H; now injection H as <-].
  destruct (Str.truthy a); [|intros H; now injection H as <-].
  assert (E1 : extends st
                 (ensure_indexed f target
                    (log (EvExists target) (log (EvResolve joined) st))))
    by (eapply extends_trans; [exact E0|apply ensure_indexed_extends]).
  destruct (negb (mem a _)); [|intros H; now injection H as <-].
  destruct (shown project_root src); [|discriminate].
  intros H; injection H as <-.
  eapply extends_trans; [exact E1|apply extends_warning].
Qed.

Lemma validate_loop_extends (l : list (Path.t * string)) :
  forall st st', validate_loop f project_root l st = Ok st' -> extends st st'.
Proof.
  induction l as [|link rest IH]; intros st st'; cbn [validate_loop].
  - intros H; injection H as <-. apply extends_refl.
  - destruct (validate_link f project_root st link) as [st1|] eqn:V;
      [|discriminate].
    intros H. eapply extends_trans; [exact (@validate_link_extends _ _ _ V)|].
    now apply IH.
Qed.

(** X11.  When [validate_links] comes to an end, the extracted links
    are the same, the errors and warnings recorded before are still
    there, in place, with the new ones after them, and every set of
    anchors that was cached before is still cached, unchanged, for the
    same file. *)
Theorem validate_links_only_adds (st st' : state) :
  validate_links f project_root st = Ok st' ->
  links st' = links st
  /\ (exists es, errors st' = (errors st ++ es)%list)
  /\ (exists ws, warnings st' = (warnings st ++ ws)%list)
  /\ (forall k v, get (anchors st) k = Some v -> get (anchors st') k = Some v).
Proof.
  intros H. destruct (@validate_loop_extends _ _ _ H) as (L & E & W & G & _).
  auto.
Qed.

Lemma hash_prefix_true (a : string) :
  Str.startswith "#" (String "#" a) = true.
Proof.
  unfold Str.startswith. cbn [String.prefix].
  destruct (ascii_dec "#" "#"); [now destruct a|congruence].
Qed.

Lemma substring_whole (s : string) : String.substring 0 (String.length s) s = s.
Proof. induction s as [|c s IH]; cbn; congruence. Qed.

Lemma mem_true_In (x : string) (l : list string) : mem x l = true -> In x l.
Proof.
  unfold mem. intros (y & Hy & E)%existsb_exists.
  apply String.eqb_eq in E. now subst.
Qed.

Lemma underived_anchor_is_missed (st : state) (k : Path.t) (a : string) :
  cache_derived st -> Str.all_chars settled a = false ->
  mem a (anchors_of st k) = false.
Proof.
  intros D Ha. destruct (mem a (anchors_of st k)) eqn:M; [|reflexivity].
  apply mem_true_In in M. unfold anchors_of in M.
  destruct (get (anchors st) k) as [v|] eqn:G; [|destruct M].
  pose proof (D k v G) as F. rewrite Forall_forall in F.
  rewrite (F a M) in Ha. discriminate.
Qed.

Lemma underived_anchor_warns (l : list (Path.t * string)) :
  forall st st',
    validate_loop f project_root l st = Ok st' ->
    cache_derived st ->
    forall src a rel,
      In (src, String "#" a) l ->
      Str.all_chars settled a = false ->
      shown project_root src = Some rel ->
      In (same_file_message rel a) (warnings st').
Proof.
  induction l as [|link rest IH]; intros st st'; cbn [validate_loop];
    [intros _ _ ? ? ? []|].
  destruct (validate_link f project_root st link) as [st1|] eqn:V;
    [|discriminate].
  intros Hr D src a rel [->|Hin] Ha Hs.
  - destruct (@validate_loop_extends _ _ _ Hr) as (_ & _ & [ws W] & _).
    rewrite W. apply in_or_app. left.
    unfold validate_link in V.
    change (Str.startswith "http" (String "#" a)) with false in V.
    rewrite hash_prefix_true in V.
    cbn [String.length Nat.sub] in V.
    change (String.substring 1 (String.length a - 0) (String "#" a))
      with (String.substring 0 (String.length a - 0) a) in V.
    rewrite Nat.sub_0_r, substring_whole in V.
    rewrite (@underived_anchor_is_missed st src a D Ha), Hs in V.
    injection V as <-. cbn [warnings add_warning]. apply in_or_app.
    right. now left.
  - destruct (@validate_link_extends _ _ _ V) as (_ & _ & _ & _ & D1).
    apply (IH _ _ Hr (D1 D) src a rel Hin Ha Hs).
Qed.

(** X12.  Anchors are cached lower-cased and stripped, and a link's
    anchor is looked up as written.  So at the end of a run, every
    same-file link whose anchor has a character that derivation would
    change or drop (a capital letter, say) has its warning recorded,
    whatever headings the file has. *)
Theorem underived_anchor_is_never_found
    (code : Z) (st : state) (src : Path.t) (a rel : string) :
  main f project_root = Ok (code, st) ->
  In (src, String "#" a) (links st) ->
  Str.all_chars settled a = false ->
  shown project_root src = Some rel ->
  In (same_file_message rel a) (warnings st).
Proof.
  unfold main, validate_links.
  destruct (extract_links f project_root init) as [st0|] eqn:X; [|discriminate].
  destruct (validate_loop _ _ _ _) as [st'|] eqn:V; [|discriminate].
  intros H Hin Ha Hs. injection H as _ <-.
  destruct (@validate_loop_extends _ _ _ V) as (L & _).
  rewrite L in Hin.
  destruct (@extract_links_harvested f project_root st0 X) as (_ & _ & D & _).
  exact (@underived_anchor_warns _ _ _ V D src a rel Hin Ha Hs).
Qed.

End Validation.

Section CrossFile.
Import Links Conditions.

Variable f : fs.
Variable project_root : Path.t.

(** X13.  A link with an anchor into a markdown file that [exists]
    reports as present, that is not a key of the cache and can be read:
    the file is read and parsed once, its anchors are cached under the
    resolved path, no error is recorded, and a warning is appended
    exactly when the anchor of the link is not among the anchors derived
    from the headings of the file. *)
Theorem anchor_into_uncached_markdown
    (st : state) (src target : Path.t)
    (url rel file_path a content : string) :
  shown project_root src = Some rel ->
  Str.startswith "http" url = false ->
  Str.startswith "#" url = false ->
  split_url url = (file_path, Some a) ->
  Str.truthy file_path = true ->
  Str.truthy a = true ->
  resolve f (Path.joinpath (Path.parent src) file_path) = Ok target ->
  exists_ f target = Ok true ->
  indexed st target = false ->
  Path.suffix target = ".md" ->
  read_text f target = inl content ->
  exists st',
    validate_link f project_root st (src, url) = Ok st'
    /\ errors st' = errors st
    /\ get (anchors st') target = Some (anchors_in content)
    /\ warnings st'
       = (warnings st
          ++ if mem a (anchors_in content) then []
             else [cross_file_message rel a file_path])%list
    /\ trace st'
       = (trace st
          ++ [EvResolve (Path.joinpath (Path.parent src) file_path);
              EvExists target; EvRead target; EvParse target])%list.
Proof.
  intros Hs Hh Ha Hu Hp Ht Hv He Hi Hx Hr. unfold validate_link.
  rewrite Hh, Ha, Hu, Hp. unfold validate_target. rewrite Hv, He.
  unfold checked_target. rewrite Ht, Hs.
  cbn [negb]. unfold ensure_indexed.
  change (indexed (log _ (log _ st)) ?t) with (indexed st t).
  rewrite Hi, Hx, String.eqb_refl, Hr. cbn [negb].
  unfold anchors_of. cbn [anchors set_anchors log]. rewrite get_put_same.
  destruct (mem a (anchors_in content)); cbn [negb];
    eexists; (split; [reflexivity|]);
    cbn [errors warnings anchors trace add_warning set_anchors log];
    rewrite ?get_put_same, ?app_nil_r, <- ?app_assoc; auto.
Qed.

(** X14.  A link with an anchor into a file that [exists] reports as
    present, that is no markdown file and not a key of the cache: the
    file is not read, and the anchor is reported as not found, with a
    warning and without an error. *)
Theorem anchor_into_other_file
    (st : state) (src target : Path.t) (url rel file_path a : string) :
  shown project_root src = Some rel ->
  Str.startswith "http" url = false ->
  Str.startswith "#" url = false ->
  split_url url = (file_path, Some a) ->
  Str.truthy file_path = true ->
  Str.truthy a = true ->
  resolve f (Path.joinpath (Path.parent src) file_path) = Ok target ->
  exists_ f target = Ok true ->
  indexed st target = false ->
  (Path.suffix target =? ".md")%string = false ->
  exists st',
    validate_link f project_root st (src, url) = Ok st'
    /\ errors st' = errors st
    /\ anchors st' = anchors st
    /\ warnings st'
       = (warnings st ++ [cross_file_message rel a file_path])%list
    /\ trace st'
       = (trace st
          ++ [EvResolve (Path.joinpath (Path.parent src) file_path);
              EvExists target])%list.
Proof.
  intros Hs Hh Ha Hu Hp Ht Hv He Hi Hx. unfold validate_link.
  rewrite Hh, Ha, Hu, Hp. unfold validate_target. rewrite Hv, He.
  unfold checked_target. rewrite Ht, Hs.
  cbn [negb]. unfold ensure_indexed.
  change (indexed (log _ (log _ st)) ?t) with (indexed st t).
  rewrite Hi, Hx. cbn [negb].
  unfold anchors_of. cbn [anchors log].
  unfold indexed in Hi.
  destruct (get (anchors st) _); [discriminate|]. cbn [mem existsb negb].
  eexists. split; [reflexivity|].
  cbn [errors warnings anchors trace add_warning log].
  rewrite <- app_assoc. auto.
Qed.

(** X15.  When [exists] answers for each of the three documentation
    directories, and each of them is missing or holds no markdown file,
    the run ends with the exit code 0: no link, no anchor, no error and
    no warning. *)
Theorem nothing_to_scan :
  (forall d, In d (docs_dirs project_root) ->
             exists_ f d = Ok false
             \/ (exists_ f d = Ok true /\ rglob_md f d = [])) ->
  exists st,
    main f project_root = Ok (0, st)
    /\ errors st = [] /\ warnings st = [] /\ links st = [] /\ anchors st = [].
Proof.
  intros H.
  assert (D : forall d st, In d (docs_dirs project_root) ->
                           extract_dir f st d = Ok (log (EvExists d) st)).
  { intros d st Hd. unfold extract_dir.
    destruct (H d Hd) as [->|[-> ->]]; reflexivity. }
  unfold main, validate_links, extract_links, docs_dirs in *.
  cbn [extract_dirs]. rewrite !D by (cbn; auto).
  cbn [links log init validate_loop]. eexists. split; [reflexivity|].
  repeat split.
Qed.

End CrossFile.

Section LinkWitnesses.
Import Links Conditions Samples.

(** X10 at [handbook]. *)
Lemma extract_links_invariants_witness :
  exists st,
    extract_links handbook repo init = Ok st
    /\ errors st = []
    /\ cache_nonempty st
    /\ cache_derived st
    /\ List.length (links st) = 6%nat
    /\ warnings st = [].
Proof.
  destruct (extract_links handbook repo init) as [st|x] eqn:X.
  - exists st. split; [reflexivity|].
    destruct (@extract_links_invariants handbook repo st X)
      as (E & N & D & _ & _).
    split; [exact E|]. split; [exact N|]. split; [exact D|].
    vm_compute in X. injection X as <-. split; reflexivity.
  - vm_compute in X. discriminate X.
Defined.

(** X11 at the run over [handbook]. *)
Lemma validate_links_only_adds_witness :
  exists st st',
    extract_links handbook repo init = Ok st
    /\ validate_links handbook repo st = Ok st'
    /\ links st' = links st
    /\ (exists es, errors st' = (errors st ++ es)%list)
    /\ (exists ws, warnings st' = (warnings st ++ ws)%list)
    /\ (forall k v,
          get (anchors st) k = Some v -> get (anchors st') k = Some v).
Proof.
  destruct (extract_links handbook repo init) as [st|x] eqn:X.
  - destruct (validate_links handbook repo st) as [st'|y] eqn:V.
    + exists st, st'. split; [reflexivity|]. split; [exact V|].
      exact (@validate_links_only_adds handbook repo st st' V).
    + vm_compute in X. injection X as <-. vm_compute in V. discriminate V.
  - vm_compute in X. discriminate X.
Defined.

(** X12 at [handbook]: the heading Install is there, the link [#Install]
    is warned about all the same. *)
Lemma underived_anchor_is_never_found_witness :
  exists code st,
    main handbook repo = Ok (code, st)
    /\ In "install" (anchors_of st setup_md)
    /\ In "docs/setup.md: Anchor '#Install' might not exist" (warnings st).
Proof.
  destruct (main handbook repo) as [[code st]|x] eqn:M.
  - exists code, st. split; [reflexivity|]. split.
    + vm_compute in M. injection M as _ <-. vm_compute. auto.
    + apply (@underived_anchor_is_never_found handbook repo code st
               setup_md "Install" "docs/setup.md" M).
      * vm_compute in M. injection M as _ <-. vm_compute. auto 10.
      * reflexivity.
      * reflexivity.
  - vm_compute in M. discriminate M.
Defined.

(** X13 at the first link of [index.md], on a fresh validator. *)
Lemma anchor_into_uncached_markdown_witness :
  exists st',
    validate_link handbook repo init (index_md, "setup.md#Install") = Ok st'
    /\ errors st' = []
    /\ get (anchors st') setup_md = Some ["setup"; "install"]
    /\ warnings st' = ["docs/index.md: Anchor '#Install' not found in setup.md"].
Proof.
  destruct (@anchor_into_uncached_markdown handbook repo init index_md
              setup_md
              "setup.md#Install" "docs/index.md" "setup.md" "Install"
              (text ["# Setup"; "## Install"; "[up](#Install)";
                     "[down](#install)"]))
    as (st' & V & E & G & W & _); try (vm_compute; reflexivity).
  exists st'. split; [exact V|]. split; [exact E|]. split; [exact G|exact W].
Defined.

(** X14 at the link into the picture. *)
Lemma anchor_into_other_file_witness :
  exists st',
    validate_link handbook repo init (index_md, "img/logo.svg#layer1") = Ok st'
    /\ errors st' = []
    /\ anchors st' = []
    /\ warnings st'
       = ["docs/index.md: Anchor '#layer1' not found in img/logo.svg"].
Proof.
  destruct (@anchor_into_other_file handbook repo init index_md
              (Path.of_string "/repo/docs/img/logo.svg")
              "img/logo.svg#layer1" "docs/index.md" "img/logo.svg" "layer1")
    as (st' & V & E & A & W & _); try (vm_compute; reflexivity).
  exists st'. split; [exact V|]. split; [exact E|]. split; [exact A|exact W].
Defined.

(** X15 at a repository without documentation directories. *)
Lemma nothing_to_scan_witness :
  exists st,
    main bare repo = Ok (0, st)
    /\ errors st = [] /\ warnings st = [] /\ links st = [] /\ anchors st = [].
Proof.
  apply (@nothing_to_scan bare repo).
  intros d [<-|[<-|[<-|[]]]]; left; vm_compute; reflexivity.
Defined.

(** X16 at [two_files]: validation parses [a.md] once, on top of the
    parse of extraction. *)
Lemma validation_parses_at_most_once_witness :
  exists st st',
    extract_links two_files repo init = Ok st
    /\ validate_loop two_files repo (links st) st = Ok st'
    /\ (indexed st a_md = true ->
        indexed st' a_md = true /\ parses a_md st' = parses a_md st)
    /\ (parses a_md st' <= S (parses a_md st))%nat.
Proof.
  destruct (extract_links two_files repo init) as [st|x] eqn:X.
  - destruct (validate_loop two_files repo (links st) st) as [st'|y] eqn:V.
    + exists st, st'. split; [reflexivity|]. split; [exact V|].
      exact (@validation_parses_at_most_once two_files repo a_md _ _ st' V).
    + vm_compute in X. injection X as <-. vm_compute in V. discriminate V.
  - vm_compute in X. discriminate X.
Defined.

(** X20 at the two same-file links of [setup.md], after extraction. *)
Lemma same_file_anchor_witness :
  exists st,
    extract_links handbook repo init = Ok st
    /\ validate_link handbook repo st (setup_md, "#install") = Ok st
    /\ validate_link handbook repo st (setup_md, "#Install")
       = Ok {| errors := errors st;
               warnings :=
                 warnings st
                 ++ ["docs/setup.md: Anchor '#Install' might not exist"];
               anchors := anchors st;
               links := links st;
               trace := trace st |}.
Proof.
  destruct (extract_links handbook repo init) as [st|x] eqn:X.
  - exists st. split; [reflexivity|].
    vm_compute in X. injection X as E. split.
    + rewrite (@same_file_anchor handbook repo st setup_md "#install"
                 "docs/setup.md" eq_refl eq_refl eq_refl).
      rewrite <- E. vm_compute. reflexivity.
    + rewrite (@same_file_anchor handbook repo st setup_md "#Install"
                 "docs/setup.md" eq_refl eq_refl eq_refl).
      rewrite <- E. vm_compute. reflexivity.
  - vm_compute in X. discriminate X.
Defined.

(** X21 at the first two links of [index.md], after extraction: the
    anchor that is derived from a heading of [setup.md] is found, the
    capitalised one is not. *)
Lemma cross_file_anchor_witness :
  exists st st1 st2,
    extract_links handbook repo init = Ok st
    /\ validate_link handbook repo st (index_md, "setup.md#install") = Ok st1
    /\ warnings st1 = warnings st
    /\ validate_link handbook repo st (index_md, "setup.md#Install") = Ok st2
    /\ warnings st2
       = (warnings st
          ++ ["docs/index.md: Anchor '#Install' not found in setup.md"])%list.
Proof.
  destruct (extract_links handbook repo init) as [st|x] eqn:X.
  - vm_compute in X. injection X as E.
    destruct (@cross_file_anchor handbook repo st index_md setup_md
                "setup.md#install" "docs/index.md" "setup.md" "install"
                eq_refl eq_refl eq_refl eq_refl eq_refl eq_refl eq_refl eq_refl)
      as (st1 & V1 & _ & S1).
    destruct (@cross_file_anchor handbook repo st index_md setup_md
                "setup.md#Install" "docs/index.md" "setup.md" "Install"
                eq_refl eq_refl eq_refl eq_refl eq_refl eq_refl eq_refl eq_refl)
      as (st2 & V2 & _ & S2).
    exists st, st1, st2. split; [reflexivity|].
    split; [exact V1|]. cbv zeta in S1, S2.
    split; [rewrite S1, <- E; vm_compute; reflexivity|].
    split; [exact V2|]. rewrite S2, <- E. vm_compute. reflexivity.
  - vm_compute in X. discriminate X.
Defined.

End LinkWitnesses.

(** * What the link pattern captures *)

Section LinkPattern.
Import Re Links Conditions.

Lemma match_here_rep greedy lo hi cls (p' : pattern) k s :
  match_here (Rep greedy lo hi cls :: p') k s
  = rep_from p' greedy lo hi cls 0 k s.
Proof. reflexivity. Qed.

Lemma rep_from_nil (p' : pattern) greedy lo hi cls n k :
  rep_from p' greedy lo hi cls n k EmptyString
  = if Nat.leb lo n then match_here p' k EmptyString else None.
Proof. cbn. now destruct greedy, (Nat.leb lo n), (match_here p' k ""). Qed.

Lemma rep_from_cons (p' : pattern) greedy lo hi cls n k c r :
  rep_from p' greedy lo hi cls n k (String c r)
  = let more :=
      if (cls c && below n hi)%bool
      then rep_from p' greedy lo hi cls (S n)
             {| prev := Some c; gopen := gopen k; group1 := group1 k |} r
      else None in
    let stop := if Nat.leb lo n then match_here p' k (String c r) else None in
    if greedy
    then match more with Some v => Some v | None => stop end
    else match stop with Some v => Some v | None => more end.
Proof. reflexivity. Qed.

Lemma rep_leads_on (greedy : bool) (lo : nat) (hi : option nat)
    (cls : ascii -> bool) (p' : pattern) (res : string * cursor) :
  forall s n k,
    rep_from p' greedy lo hi cls n k s = Some res ->
    exists k1 s1, match_here p' k1 s1 = Some res.
Proof.
  induction s as [|c s IH]; intros n k.
  - rewrite rep_from_nil. destruct (Nat.leb lo n); [eauto|discriminate].
  - rewrite rep_from_cons. cbv zeta. destruct greedy.
    + destruct (cls c && below n hi)%bool.
      * destruct (rep_from p' true lo hi cls (S n) _ s) eqn:R.
        -- intros H. injection H as <-. exact (IH _ _ R).
        -- destruct (Nat.leb lo n); [eauto|discriminate].
      * destruct (Nat.leb lo n); [eauto|discriminate].
    + destruct (Nat.leb lo n).
      * destruct (match_here p' k (String c s)) eqn:R.
        -- intros H. injection H as <-. eauto.
        -- destruct (cls c && below n hi)%bool; [apply IH|discriminate].
      * destruct (cls c && below n hi)%bool; [apply IH|discriminate].
Qed.

Lemma lit_leads_on (l : string) (p' : pattern) (res : string * cursor) s k :
  match_here (Lit l :: p') k s = Some res ->
  exists k1 s1, match_here p' k1 s1 = Some res.
Proof.
  cbn [match_here]. destruct (drop_prefix l s) as [[r last]|];
    [eauto|discriminate].
Qed.

Lemma take_front (g s : string) :
  Str.take (String.length (g ++ s) - String.length s) (g ++ s) = g.
Proof.
  assert (L : forall a b : string,
             String.length (a ++ b) = (String.length a + String.length b)%nat).
  { induction a; intros; cbn; [reflexivity|now rewrite IHa]. }
  rewrite L. replace (_ + _ - _)%nat with (String.length g) by lia.
  induction g as [|c g IH]; cbn; [now destruct s|now rewrite IH].
Qed.

Lemma plain_snoc (g : string) (c : ascii) :
  plain g -> Ascii.eqb c ")" = false -> Chars.is_dot c = true ->
  plain (g ++ String c EmptyString).
Proof.
  intros [H1 H2] Hc Hd. unfold Chars.is_dot in Hd.
  apply negb_true_iff in Hd. unfold plain in *.
  induction g as [|d g IH]; cbn [append Str.has_char] in *.
  - rewrite Hc, Hd. now split.
  - apply orb_false_iff in H1 as [A1 B1]. apply orb_false_iff in H2 as [A2 B2].
    destruct (IH B1 B2) as [I1 I2]. rewrite A1, A2, I1, I2. now split.
Qed.

Lemma target_is_plain :
  forall s n g k res,
    gopen k = g ++ s -> plain g ->
    rep_from [Close; Lit ")"] false 0 None Chars.is_dot n k s = Some res ->
    plain (group1 (snd res)).
Proof.
  induction s as [|c s IH]; intros n g k res Hg Hp.
  - rewrite rep_from_nil. cbn. discriminate.
  - rewrite rep_from_cons. cbv zeta.
    cbn [Nat.leb match_here drop_prefix below].
    destruct (Ascii.eqb ")" c) eqn:E.
    + intros H. injection H as <-. cbn [snd group1 gopen].
      rewrite Hg, take_front. exact Hp.
    + rewrite andb_true_r. destruct (Chars.is_dot c) eqn:D; [|discriminate].
      apply (IH _ (g ++ String c EmptyString)).
      * cbn [gopen]. rewrite Hg, str_app_assoc. reflexivity.
      * apply plain_snoc; [assumption| |assumption].
        rewrite Ascii.eqb_sym. exact E.
Qed.

Lemma md_pattern_target_plain (k : cursor) (s : string) res :
  match_here md_pattern k s = Some res -> plain (group1 (snd res)).
Proof.
  unfold md_pattern. intros H.
  apply lit_leads_on in H as (k1 & s1 & H).
  rewrite match_here_rep in H.
  apply rep_leads_on in H as (k2 & s2 & H).
  apply lit_leads_on in H as (k3 & s3 & H).
  change (rep_from [Close; Lit ")"] false 0 None Chars.is_dot 0
            {| prev := prev k3; gopen := s3; group1 := group1 k3 |} s3
          = Some res) in H.
  apply (@target_is_plain s3 0%nat EmptyString
           {| prev := prev k3; gopen := s3; group1 := group1 k3 |} res);
    [reflexivity|now split|exact H].
Qed.

Lemma finditer_from_matches (p : pattern) (m : mtch) :
  forall s skip before,
    In m (finditer_from p skip before s) ->
    exists b s' n, match_at p b s' = Some (m, n).
Proof.
  induction s as [|c s IH]; intros skip before; cbn [finditer_from].
  - destruct skip; [|intros []].
    destruct (match_at p before EmptyString) as [[m0 n]|] eqn:M; [|intros []].
    intros [<-|[]]. eauto.
  - intros H. apply in_app_or in H as [H|H]; [|exact (IH _ _ H)].
    destruct skip; [|destruct H].
    destruct (match_at p before (String c s)) as [[m0 n]|] eqn:M;
      [|destruct H].
    destruct H as [<-|[]]. eauto.
Qed.

(** X17.  The target of every link that [extract_links] takes from a
    text is free of closing parentheses and of line breaks: the pattern
    ends a target at the first closing parenthesis on the line. *)
Theorem link_targets_are_plain (md_file : Path.t) (content : string) :
  Forall (fun link =>
            fst link = md_file
            /\ Str.has_char ")" (snd link) = false
            /\ Str.has_char Chars.newline (snd link) = false)
    (links_in md_file content).
Proof.
  apply Forall_forall. intros link H. unfold links_in in H.
  apply in_map_iff in H as (m & <- & Hm). cbn [fst snd].
  split; [reflexivity|].
  apply finditer_from_matches in Hm as (b & s' & n & M).
  unfold match_at in M.
  destruct (match_here md_pattern (start_cursor b) s') as [[r k]|] eqn:R;
    [|discriminate].
  injection M as <- _. cbn [grp1].
  exact (md_pattern_target_plain _ _ R).
Qed.

End LinkPattern.
